(** * Real-time Lyra streaming pipeline: receiver, sender and loopback demo

    A shallow embedding of the three command line programs under
    [lyra/cli_example/]: [realtime_receiver.cc], [realtime_sender.cc] and
    [realtime_demo.cc].

    - [std::queue<T>] is a [list T] whose head is the front of the queue.
    - [int16_t] samples are [Z], [uint8_t] bytes are [Byte.byte].
    - An output buffer handed over by PortAudio is a [list Z] written by
      index; a write at index [i] is stdpp's [<[i:=v]>].  The C++ code
      writes positions [0 .. frameCount-1] of a buffer PortAudio sized for
      [frameCount] frames, so theorems about buffers assume
      [frameCount <= length out], outside of which C++ has no defined
      behaviour.
    - The Lyra codec and PortAudio are external libraries.  The codec is an
      interface (a type class of state-passing operations); PortAudio and
      socket calls are events of a trace and their results are inputs. *)

From Stdlib Require Import ZArith String.
From Stdlib.Strings Require Import Byte.
From stdpp Require Import base list.

Open Scope Z_scope.

(** ** [std::queue] *)

Module StdQueue.
Section queue.
Context {T : Type}.

(** [q.push(x)] *)
Definition push (x : T) (q : list T) : list T := q ++ [x].

(** [q.empty()] *)
Definition empty (q : list T) : bool :=
  match q with
  | [] => true
  | _ :: _ => false
  end.

(** [q.front()]; the standard leaves it undefined on an empty queue, the
    sources call it only under [!q.empty()]. *)
Definition front (q : list T) : option T := head q.

(** [q.pop()]; same remark as for [front]. *)
Definition pop (q : list T) : list T := tail q.

(** The guarded removal every consumer in the sources performs under the
    queue's mutex:
    [if (!q.empty()) { x = q.front(); q.pop(); }] *)
Definition try_pop (q : list T) : option T * list T :=
  if negb (empty q) then (front q, pop q) else (None, q).

(** One operation of the producer or of the consumer.  The mutex makes
    each of them atomic, so a concurrent history of one queue is a
    sequence of these. *)
Inductive op : Type :=
| Push (x : T)
| TryPop.

(** Runs a history; returns what the consumer observed, one entry per
    [TryPop], and the final queue. *)
Fixpoint run (ops : list op) (q : list T) : list (option T) * list T :=
  match ops with
  | [] => ([], q)
  | Push x :: ops' => run ops' (push x q)
  | TryPop :: ops' =>
      let '(r, q') := try_pop q in
      let '(obs, qf) := run ops' q' in
      (r :: obs, qf)
  end.

(** The items pushed by a history, in push order. *)
Definition pushed (ops : list op) : list T :=
  omap (fun o => match o with Push x => Some x | TryPop => None end) ops.

(** The items the consumer actually received, in receipt order. *)
Definition received (obs : list (option T)) : list T := omap id obs.
End queue.
Arguments op : clear implicits.
End StdQueue.

(** ** Constants shared by the three programs *)

Definition kSampleRate : Z := 16000.
Definition kNumChannels : Z := 1.
Definition kBitrate : Z := 3200.
Definition kFramesPerBuffer : Z := kSampleRate / 50.

(** Result of a stream callback, the enumeration [PaStreamCallbackResult]
    of [portaudio.h] (the header is not part of the source tree). *)
Inductive PaStreamCallbackResult : Type :=
| paContinue
| paComplete
| paAbort.

(** ** The codec interface *)

(** [chromemedia::codec::LyraDecoder], as far as the programs use it.  The
    decoder object is stateful; [D] is its state. *)
Class LyraDecoder (D : Type) := {
  SetEncodedPacket : D -> list byte -> bool * D;
  DecodeSamples : D -> Z -> option (list Z) * D
}.

(** [chromemedia::codec::LyraEncoder]. *)
Class LyraEncoder (E : Type) := {
  Encode : E -> list Z -> option (list byte) * E
}.

(** ** [main] as a program over a trace of library calls *)

(** The two sides of [#ifdef _WIN32]. *)
Inductive Platform : Type :=
| Win32
| Posix.

Inductive Thread : Type :=
| network_thread
| decoder_thread.

(** The calls of [main] that matter for start-up and shutdown; console
    output is left out. *)
Inductive Event : Type :=
| LyraEncoder_Create
| LyraDecoder_Create
| thread_start (t : Thread)
| thread_join (t : Thread)
| Pa_Initialize
| Pa_GetDefaultInputDevice
| Pa_GetDefaultOutputDevice
| Pa_GetDeviceInfo
| Pa_OpenStream
| Pa_StartStream
| Pa_StopStream
| Pa_CloseStream
| Pa_Terminate
| Pa_GetErrorText
| cin_get
| set_g_finished
| socket_shutdown
| socket_closesocket.

Global Instance Thread_eq_dec : EqDecision Thread.
Proof. solve_decision. Defined.

Global Instance Event_eq_dec : EqDecision Event.
Proof. solve_decision. Defined.

(** How [main] ends: it returns an exit code, an exception leaves it
    ([std::stoi] throws on an argument that is not a number), or it
    reaches a statement that C++ gives no meaning (a null pointer is
    dereferenced, an invalid stream is used), where the process
    typically crashes. *)
Inductive Outcome : Type :=
| Exit (code : Z)
| UncaughtException
| UndefinedBehaviour.

(** A computation that performs library calls: the calls in order, and a
    result. *)
Definition Trace (A : Type) : Type := list Event * A.

Global Instance Trace_ret : MRet Trace := fun A (a : A) => ([], a).

Global Instance Trace_bind : MBind Trace :=
  fun A B (k : A -> Trace B) (m : Trace A) =>
    let '(t1, a) := m in
    let '(t2, b) := k a in
    (t1 ++ t2, b).

Definition call (e : Event) : Trace unit := ([e], tt).

(** Every occurrence of [a] in the trace comes before every occurrence
    of [b]. *)
Definition precedes (a b : Event) (tr : list Event) : Prop :=
  forall i j, tr !! i = Some a -> tr !! j = Some b -> (i < j)%nat.

(** The stop sequence in the order: shutdown flag, then the call that
    unblocks the transport, then the join of every thread the trace
    started, then stop and close of the audio stream. *)
Definition stop_sequence_in_order (unblock : Event) (tr : list Event)
  : Prop :=
  set_g_finished ∈ tr
  /\ unblock ∈ tr
  /\ Pa_StopStream ∈ tr
  /\ Pa_CloseStream ∈ tr
  /\ precedes set_g_finished unblock tr
  /\ (forall t, thread_start t ∈ tr ->
        thread_join t ∈ tr
        /\ precedes unblock (thread_join t) tr
        /\ precedes (thread_join t) Pa_StopStream tr
        /\ precedes (thread_join t) Pa_CloseStream tr).

(** [PaError] and [PaDeviceIndex] values of [portaudio.h] (the header is
    not part of the source tree). *)
Definition paNoError : Z := 0.
Definition paNoDevice : Z := -1.

(** What the receiver's and the sender's [main] depend on among the
    answers of PortAudio.  Both evaluate
    [Pa_GetDeviceInfo(device)->defaultLow...Latency] without a test:
    [device_info_found] says that [Pa_GetDeviceInfo] returned a device
    record and not a null pointer (which it returns when there is no
    default device, [paNoDevice]).  Both declare [PaStream* stream]
    without a value and pass it on after [Pa_OpenStream] without looking
    at the error code: [stream_opened] says that [Pa_OpenStream]
    succeeded and stored a valid stream.  The error codes of the other
    calls are discarded and decide nothing. *)
Record PaAnswers : Type := mkPaAnswers {
  device_info_found : bool;
  stream_opened : bool
}.

(** ** The receiver, [realtime_receiver.cc] *)

Module Receiver.

(** The global variables.  The two mutexes do not appear: every access
    below is one critical section. *)
Record Globals : Type := mkGlobals {
  g_jitter_buffer : list (list byte);
  g_pcm_buffer : list Z;
  g_finished : bool;
  g_socket_handle : Z
}.

Definition initial : Globals :=
  {| g_jitter_buffer := []; g_pcm_buffer := [];
     g_finished := false; g_socket_handle := -1 |}.

Definition set_jitter (q : list (list byte)) (g : Globals) : Globals :=
  {| g_jitter_buffer := q; g_pcm_buffer := g_pcm_buffer g;
     g_finished := g_finished g; g_socket_handle := g_socket_handle g |}.

Definition set_pcm (q : list Z) (g : Globals) : Globals :=
  {| g_jitter_buffer := g_jitter_buffer g; g_pcm_buffer := q;
     g_finished := g_finished g; g_socket_handle := g_socket_handle g |}.

Definition set_finished (b : bool) (g : Globals) : Globals :=
  {| g_jitter_buffer := g_jitter_buffer g; g_pcm_buffer := g_pcm_buffer g;
     g_finished := b; g_socket_handle := g_socket_handle g |}.

Definition set_socket (h : Z) (g : Globals) : Globals :=
  {| g_jitter_buffer := g_jitter_buffer g; g_pcm_buffer := g_pcm_buffer g;
     g_finished := g_finished g; g_socket_handle := h |}.

(** *** [audioCallback] *)

(** Body of [for (int i = 0; i < frameCount; ++i)]: the state is the
    output buffer and [g_pcm_buffer]. *)
Definition audioCallback_body (st : list Z * list Z) (i : nat)
  : list Z * list Z :=
  let '(out, pcm) := st in
  if negb (StdQueue.empty pcm) then
    (<[i := default 0 (StdQueue.front pcm)]> out, StdQueue.pop pcm)
  else
    (<[i := 0]> out, pcm).

(** The loop run for positions [0 .. n-1]. *)
Definition audioCallback_loop (n : nat) (out pcm : list Z)
  : list Z * list Z :=
  foldl audioCallback_body (out, pcm) (seq 0 n).

(** The callback: the filled buffer, the globals afterwards and the
    value returned to PortAudio. *)
Definition audioCallback (frameCount : nat) (out : list Z) (g : Globals)
  : list Z * Globals * PaStreamCallbackResult :=
  let '(out', pcm') := audioCallback_loop frameCount out (g_pcm_buffer g) in
  (out', set_pcm pcm' g, paContinue).


(** *** [network_thread_func] *)

(** What one call of [recvfrom] delivers: a datagram, or the error
    return. *)
Inductive RecvResult : Type :=
| Datagram (payload : list byte)
| RecvError.

(** [recvfrom(fd, buffer.data(), buffer.size(), 0, nullptr, nullptr)]:
    the returned count and the buffer afterwards.  A datagram longer
    than the buffer is cut to the buffer's size; the bytes behind the
    received ones keep their value. *)
Definition recvfrom (buffer : list byte) (r : RecvResult)
  : Z * list byte :=
  match r with
  | Datagram payload =>
      let received := take (length buffer) payload in
      (Z.of_nat (length received),
       received ++ drop (length received) buffer)
  | RecvError => (-1, buffer)
  end.

(** Body of [while (!g_finished)] in [network_thread_func]. *)
Definition network_thread_body (r : RecvResult) (g : Globals) : Globals :=
  let buffer := replicate 256 x00 in
  let '(bytes_received, buffer) := recvfrom buffer r in
  if 0 <? bytes_received then
    let buffer := resize (Z.to_nat bytes_received) x00 buffer in
    set_jitter (StdQueue.push buffer (g_jitter_buffer g)) g
  else g.

(** Where a worker thread stands with respect to its [while] loop. *)
Inductive LoopStatus : Type :=
| InLoop
| LoopExited.

(** The part of [network_thread_func] before the loop, on the results
    of [WSAStartup] (Windows only), [socket] and [bind]: the globals
    afterwards, and whether the loop is entered.  A failure returns
    from the thread function, nothing else. *)
Definition WSAStartup_failed (platform : Platform) (wsa_startup : Z)
  : bool :=
  match platform with
  | Win32 => negb (wsa_startup =? 0)
  | Posix => false
  end.

Definition network_thread_setup (platform : Platform)
    (wsa_startup socket_fd bind_result : Z) (g : Globals)
  : Globals * LoopStatus :=
  if WSAStartup_failed platform wsa_startup then (g, LoopExited)
  else
    let g := set_socket socket_fd g in
    if g_socket_handle g <? 0 then (g, LoopExited)
    else if bind_result <? 0 then (g, LoopExited)
    else (g, InLoop).

(** *** [decoder_thread_func] *)

Section decoder.
Context {D : Type} `{!LyraDecoder D}.

(** [for (int16_t sample : decoded.value()) g_pcm_buffer.push(sample);] *)
Definition push_samples (samples pcm : list Z) : list Z :=
  foldl (fun q sample => StdQueue.push sample q) pcm samples.

(** Body of [while (!g_finished)] in [decoder_thread_func].  The
    packet is taken under [g_jitter_mutex] and the samples are pushed
    under [g_pcm_mutex]; the two sections touch different queues and
    what lies between them is local to the thread, so the body is one
    step here. *)
Definition decoder_thread_body (d : D) (g : Globals) : D * Globals :=
  let '(popped, jitter) := StdQueue.try_pop (g_jitter_buffer g) in
  let encoded_packet : list byte := default [] popped in
  let g := set_jitter jitter g in
  if negb (StdQueue.empty encoded_packet) then
    let '(accepted, d) := SetEncodedPacket d encoded_packet in
    if accepted then
      let '(decoded, d) := DecodeSamples d kFramesPerBuffer in
      match decoded with
      | Some samples =>
          (d, set_pcm (push_samples samples (g_pcm_buffer g)) g)
      | None => (d, g)
      end
    else (d, g)
  else (d, g).

(** *** The running receiver *)

(** The state shared by the threads, the decoder object, the position
    of the two workers, and the frames handed to the sound device so
    far (oldest first). *)
Record System : Type := mkSystem {
  globals : Globals;
  decoder : D;
  network_loop : LoopStatus;
  decoder_loop : LoopStatus;
  played : list (list Z)
}.

(** One scheduling step: a worker makes a whole pass of its loop (it
    tests the loop condition and, when it holds, runs the loop body
    once); PortAudio invokes the callback on a buffer of [frameCount]
    frames; [main] executes [g_finished = true].

    A pass is one step here.  In the program [main] can set the flag
    between the test and the body of a pass; the body does not read the
    flag, so that pass has the effect of a pass scheduled before
    [SetFinished].  What holds of single passes and of reachable states
    is stated on this system; what happens after the flag is set is
    stated on [FineSystem] below, where the test is a step of its
    own. *)
Inductive Action : Type :=
| NetworkIter (r : RecvResult)
| DecoderIter
| Callback (frameCount : nat) (out : list Z)
| SetFinished.

Definition step (s : System) (a : Action) : System :=
  match a with
  | NetworkIter r =>
      match network_loop s with
      | LoopExited => s
      | InLoop =>
          if g_finished (globals s) then
            {| globals := globals s; decoder := decoder s;
               network_loop := LoopExited;
               decoder_loop := decoder_loop s; played := played s |}
          else
            {| globals := network_thread_body r (globals s);
               decoder := decoder s; network_loop := InLoop;
               decoder_loop := decoder_loop s; played := played s |}
      end
  | DecoderIter =>
      match decoder_loop s with
      | LoopExited => s
      | InLoop =>
          if g_finished (globals s) then
            {| globals := globals s; decoder := decoder s;
               network_loop := network_loop s;
               decoder_loop := LoopExited; played := played s |}
          else
            let '(d, g) := decoder_thread_body (decoder s) (globals s) in
            {| globals := g; decoder := d;
               network_loop := network_loop s;
               decoder_loop := InLoop; played := played s |}
      end
  | Callback frameCount out =>
      let '(out', g, _) := audioCallback frameCount out (globals s) in
      {| globals := g; decoder := decoder s;
         network_loop := network_loop s;
         decoder_loop := decoder_loop s;
         played := played s ++ [take frameCount out'] |}
  | SetFinished =>
      {| globals := set_finished true (globals s);
         decoder := decoder s; network_loop := network_loop s;
         decoder_loop := decoder_loop s; played := played s |}
  end.

Definition run (s : System) (schedule : list Action) : System :=
  foldl step s schedule.

(** The receiver once [main] has started both workers: the network
    thread has done its set-up, the decoder thread enters its loop,
    nothing is queued. *)
Definition start (platform : Platform)
    (wsa_startup socket_fd bind_result : Z) (d : D) : System :=
  let '(g, network) :=
    network_thread_setup platform wsa_startup socket_fd bind_result
      initial in
  {| globals := g; decoder := d; network_loop := network;
     decoder_loop := InLoop; played := [] |}.

(** The states a run of the receiver can be in. *)
Definition reachable (s : System) : Prop :=
  exists platform wsa_startup socket_fd bind_result d schedule,
    s = run (start platform wsa_startup socket_fd bind_result d)
          schedule.

(** Every packet in the jitter buffer has at least one byte. *)
Definition packets_nonempty (s : System) : Prop :=
  Forall (fun packet : list byte => packet <> [])
    (g_jitter_buffer (globals s)).

(** What the codec makes of a sequence of packets handed to it one
    after the other, each with [SetEncodedPacket] followed by
    [DecodeSamples(kFramesPerBuffer)]: the frames in order, when every
    packet is accepted and yields a frame. *)
Fixpoint decode_frames (d : D) (packets : list (list byte))
  : option (list (list Z)) :=
  match packets with
  | [] => Some []
  | packet :: packets' =>
      let '(accepted, d) := SetEncodedPacket d packet in
      if accepted then
        let '(decoded, d) := DecodeSamples d kFramesPerBuffer in
        match decoded with
        | Some frame => cons frame <$> decode_frames d packets'
        | None => None
        end
      else None
  end.

(** *** The loop test as a step of its own *)

(** Where a worker stands in [while (!g_finished) { ... }]: about to
    evaluate the condition, past the condition with the body still to
    run, or out of the loop. *)
Inductive Position : Type :=
| AtTest
| InBody
| AfterLoop.

Record FineSystem : Type := mkFineSystem {
  fine_globals : Globals;
  fine_decoder : D;
  network_at : Position;
  decoder_at : Position;
  fine_played : list (list Z)
}.

(** A worker evaluates [!g_finished]; a worker past the test runs its
    loop body; PortAudio invokes the callback; [main] executes
    [g_finished = true].  An action of a worker that is not at the
    matching position does nothing. *)
Inductive FineAction : Type :=
| NetworkTest
| NetworkBody (r : RecvResult)
| DecoderTest
| DecoderBody
| CallbackCall (frameCount : nat) (out : list Z)
| FlagSet.

(** The number of passes a worker has begun and not finished. *)
Definition in_flight (p : Position) : nat :=
  match p with
  | InBody => 1
  | _ => 0
  end.

(** The outcome of the loop test. *)
Definition loop_test (g : Globals) : Position :=
  if g_finished g then AfterLoop else InBody.

Definition fine_step (s : FineSystem) (a : FineAction) : FineSystem :=
  match a with
  | NetworkTest =>
      match network_at s with
      | AtTest =>
          {| fine_globals := fine_globals s;
             fine_decoder := fine_decoder s;
             network_at := loop_test (fine_globals s);
             decoder_at := decoder_at s;
             fine_played := fine_played s |}
      | _ => s
      end
  | NetworkBody r =>
      match network_at s with
      | InBody =>
          {| fine_globals := network_thread_body r (fine_globals s);
             fine_decoder := fine_decoder s;
             network_at := AtTest;
             decoder_at := decoder_at s;
             fine_played := fine_played s |}
      | _ => s
      end
  | DecoderTest =>
      match decoder_at s with
      | AtTest =>
          {| fine_globals := fine_globals s;
             fine_decoder := fine_decoder s;
             network_at := network_at s;
             decoder_at := loop_test (fine_globals s);
             fine_played := fine_played s |}
      | _ => s
      end
  | DecoderBody =>
      match decoder_at s with
      | InBody =>
          let '(d, g) :=
            decoder_thread_body (fine_decoder s) (fine_globals s) in
          {| fine_globals := g;
             fine_decoder := d;
             network_at := network_at s;
             decoder_at := AtTest;
             fine_played := fine_played s |}
      | _ => s
      end
  | CallbackCall frameCount out =>
      let '(out', g, _) :=
        audioCallback frameCount out (fine_globals s) in
      {| fine_globals := g;
         fine_decoder := fine_decoder s;
         network_at := network_at s;
         decoder_at := decoder_at s;
         fine_played := fine_played s ++ [take frameCount out'] |}
  | FlagSet =>
      {| fine_globals := set_finished true (fine_globals s);
         fine_decoder := fine_decoder s;
         network_at := network_at s;
         decoder_at := decoder_at s;
         fine_played := fine_played s |}
  end.

Definition fine_run (s : FineSystem) (schedule : list FineAction)
  : FineSystem :=
  foldl fine_step s schedule.

(** A state of [System] seen as a state of [FineSystem], and a step of
    [System] as the steps it stands for: a pass is the test followed by
    the body. *)
Definition position_of (l : LoopStatus) : Position :=
  match l with
  | InLoop => AtTest
  | LoopExited => AfterLoop
  end.

Definition refine (s : System) : FineSystem :=
  {| fine_globals := globals s;
     fine_decoder := decoder s;
     network_at := position_of (network_loop s);
     decoder_at := position_of (decoder_loop s);
     fine_played := played s |}.

Definition fine_actions (a : Action) : list FineAction :=
  match a with
  | NetworkIter r => [NetworkTest; NetworkBody r]
  | DecoderIter => [DecoderTest; DecoderBody]
  | Callback frameCount out => [CallbackCall frameCount out]
  | SetFinished => [FlagSet]
  end.
End decoder.
Arguments System : clear implicits.
Arguments FineSystem : clear implicits.


(** *** [main] *)

(** The call that unblocks [recvfrom]. *)
Definition unblock_socket (platform : Platform) : Event :=
  match platform with
  | Win32 => socket_closesocket
  | Posix => socket_shutdown
  end.

(** [argc], the result of [std::stoi(argv[1])] ([None] when it
    throws), whether [LyraDecoder::Create] returned a decoder, and the
    answers of PortAudio.  The pointer returned by [Pa_GetDeviceInfo] is
    dereferenced as it comes, after both threads were started; the
    stream is used as [Pa_OpenStream] left it. *)
Definition main (platform : Platform) (argc : Z) (port : option Z)
    (decoder_created : bool) (pa : PaAnswers) : Trace Outcome :=
  if negb (argc =? 2) then mret (Exit 1)
  else
    match port with
    | None => mret UncaughtException
    | Some _ =>
        call LyraDecoder_Create;;
        if negb decoder_created then mret (Exit 1)
        else
          call (thread_start network_thread);;
          call (thread_start decoder_thread);;
          call Pa_Initialize;;
          call Pa_GetDefaultOutputDevice;;
          call Pa_GetDeviceInfo;;
          if negb (device_info_found pa) then mret UndefinedBehaviour
          else
            call Pa_OpenStream;;
            if negb (stream_opened pa) then mret UndefinedBehaviour
            else
              call Pa_StartStream;;
              call cin_get;;
              call set_g_finished;;
              call (unblock_socket platform);;
              call (thread_join network_thread);;
              call (thread_join decoder_thread);;
              call Pa_StopStream;;
              call Pa_CloseStream;;
              call Pa_Terminate;;
              mret (Exit 0)
    end.

(** A whole run of the process as far as its exit is concerned: the
    trace and outcome of [main], and, when [main] started the network
    thread, how that thread's set-up went. *)
Record ProcessRun : Type := mkProcessRun {
  main_trace : list Event;
  network_setup : option LoopStatus;
  outcome : Outcome
}.

Definition process (platform : Platform) (argc : Z) (port : option Z)
    (decoder_created : bool) (pa : PaAnswers)
    (wsa_startup socket_fd bind_result : Z)
  : ProcessRun :=
  let '(tr, o) := main platform argc port decoder_created pa in
  {| main_trace := tr;
     network_setup :=
       if decide (thread_start network_thread ∈ tr) then
         Some (network_thread_setup platform wsa_startup socket_fd
                 bind_result initial).2
       else None;
     outcome := o |}.

End Receiver.

(** ** The sender, [realtime_sender.cc] *)

Module Sender.

Record Globals : Type := mkGlobals {
  g_encoded_packets_queue : list (list byte);
  g_finished : bool
}.

Definition initial : Globals :=
  {| g_encoded_packets_queue := []; g_finished := false |}.

Definition set_queue (q : list (list byte)) (g : Globals) : Globals :=
  {| g_encoded_packets_queue := q; g_finished := g_finished g |}.

Section encoder.
Context {E : Type} `{!LyraEncoder E}.

(** [audioCallback]: [in] is the capture buffer, of which
    [absl::MakeConstSpan(in, frameCount)] views the first
    [frameCount] samples. *)
Definition audioCallback (frameCount : nat) (input : list Z)
    (encoder : E) (g : Globals)
  : E * Globals * PaStreamCallbackResult :=
  let '(encoded, encoder) := Encode encoder (take frameCount input) in
  match encoded with
  | Some packet =>
      (encoder,
       set_queue (StdQueue.push packet (g_encoded_packets_queue g)) g,
       paContinue)
  | None => (encoder, g, paContinue)
  end.
End encoder.

(** Body of [while (!g_finished)] in [network_thread_func]: the globals
    afterwards and the datagram handed to [sendto], if any. *)
Definition network_thread_body (g : Globals)
  : Globals * option (list byte) :=
  let '(popped, queue) := StdQueue.try_pop (g_encoded_packets_queue g) in
  let packet_to_send : list byte := default [] popped in
  let g := set_queue queue g in
  if negb (StdQueue.empty packet_to_send) then (g, Some packet_to_send)
  else (g, None).

(** The part of [network_thread_func] before the loop: [true] when the
    loop is entered. *)
Definition network_thread_setup (platform : Platform)
    (wsa_startup socket_fd : Z) : bool :=
  if Receiver.WSAStartup_failed platform wsa_startup then false
  else if socket_fd <? 0 then false
  else true.

(** [argc], the result of [std::stoi(argv[2])], whether
    [LyraEncoder::Create] returned an encoder, and the answers of
    PortAudio.  The pointer returned by [Pa_GetDeviceInfo] is
    dereferenced as it comes, after the network thread was started; the
    stream is used as [Pa_OpenStream] left it. *)
Definition main (argc : Z) (port : option Z) (encoder_created : bool)
    (pa : PaAnswers) : Trace Outcome :=
  if negb (argc =? 3) then mret (Exit 1)
  else
    match port with
    | None => mret UncaughtException
    | Some _ =>
        call LyraEncoder_Create;;
        if negb encoder_created then mret (Exit 1)
        else
          call (thread_start network_thread);;
          call Pa_Initialize;;
          call Pa_GetDefaultInputDevice;;
          call Pa_GetDeviceInfo;;
          if negb (device_info_found pa) then mret UndefinedBehaviour
          else
            call Pa_OpenStream;;
            if negb (stream_opened pa) then mret UndefinedBehaviour
            else
              call Pa_StartStream;;
              call cin_get;;
              call set_g_finished;;
              call Pa_StopStream;;
              call Pa_CloseStream;;
              call Pa_Terminate;;
              call (thread_join network_thread);;
              mret (Exit 0)
    end.

Record ProcessRun : Type := mkProcessRun {
  main_trace : list Event;
  network_setup : option bool;
  outcome : Outcome
}.

Definition process (platform : Platform) (argc : Z) (port : option Z)
    (encoder_created : bool) (pa : PaAnswers) (wsa_startup socket_fd : Z)
  : ProcessRun :=
  let '(tr, o) := main argc port encoder_created pa in
  {| main_trace := tr;
     network_setup :=
       if decide (thread_start network_thread ∈ tr) then
         Some (network_thread_setup platform wsa_startup socket_fd)
       else None;
     outcome := o |}.

(** *** The running sender *)

(** The packets of a list that have at least one byte. *)
Definition nonempty_packets (packets : list (list byte))
  : list (list byte) :=
  List.filter (fun packet => negb (StdQueue.empty packet)) packets.

Definition set_finished (b : bool) (g : Globals) : Globals :=
  {| g_encoded_packets_queue := g_encoded_packets_queue g;
     g_finished := b |}.

Section sender_run.
Context {E : Type} `{!LyraEncoder E}.

(** The globals, the encoder object, the position of the network thread
    and the datagrams handed to [sendto] so far (oldest first). *)
Record System : Type := mkSystem {
  globals : Globals;
  encoder : E;
  network_loop : Receiver.LoopStatus;
  sent : list (list byte)
}.

(** One scheduling step: PortAudio invokes the capture callback on a
    buffer of [frameCount] frames; the network thread makes a whole pass
    of its loop (it tests its loop condition and, when it holds, runs
    the loop body once); [main] executes [g_finished = true].

    As in the receiver, a pass is one step here, and [FineSystem] below
    has the test as a step of its own. *)
Inductive Action : Type :=
| Capture (frameCount : nat) (input : list Z)
| NetworkIter
| SetFinished.

Definition step (s : System) (a : Action) : System :=
  match a with
  | Capture frameCount input =>
      let '(e, g, _) :=
        audioCallback frameCount input (encoder s) (globals s) in
      {| globals := g; encoder := e; network_loop := network_loop s;
         sent := sent s |}
  | NetworkIter =>
      match network_loop s with
      | Receiver.LoopExited => s
      | Receiver.InLoop =>
          if g_finished (globals s) then
            {| globals := globals s; encoder := encoder s;
               network_loop := Receiver.LoopExited; sent := sent s |}
          else
            let '(g, datagram) := network_thread_body (globals s) in
            {| globals := g; encoder := encoder s;
               network_loop := Receiver.InLoop;
               sent :=
                 match datagram with
                 | Some packet => sent s ++ [packet]
                 | None => sent s
                 end |}
      end
  | SetFinished =>
      {| globals := set_finished true (globals s); encoder := encoder s;
         network_loop := network_loop s; sent := sent s |}
  end.

Definition run (s : System) (schedule : list Action) : System :=
  foldl step s schedule.

(** The packets the encoder yields along a schedule, in order: one for
    each capture callback whose [Encode] succeeds. *)
Fixpoint encoded_by (e : E) (schedule : list Action) : list (list byte) :=
  match schedule with
  | [] => []
  | Capture frameCount input :: schedule' =>
      let '(encoded, e) := Encode e (take frameCount input) in
      match encoded with
      | Some packet => packet :: encoded_by e schedule'
      | None => encoded_by e schedule'
      end
  | _ :: schedule' => encoded_by e schedule'
  end.

(** *** The loop test as a step of its own *)

(** The sender with the position of its network thread in
    [while (!g_finished) { ... }]. *)
Record FineSystem : Type := mkFineSystem {
  fine_globals : Globals;
  fine_encoder : E;
  network_at : Receiver.Position;
  fine_sent : list (list byte)
}.

(** PortAudio invokes the capture callback; the network thread
    evaluates [!g_finished]; the network thread, past the test, runs
    its loop body; [main] executes [g_finished = true]. *)
Inductive FineAction : Type :=
| CaptureCall (frameCount : nat) (input : list Z)
| NetworkTest
| NetworkBody
| FlagSet.

Definition fine_step (s : FineSystem) (a : FineAction) : FineSystem :=
  match a with
  | CaptureCall frameCount input =>
      let '(e, g, _) :=
        audioCallback frameCount input (fine_encoder s) (fine_globals s) in
      {| fine_globals := g; fine_encoder := e;
         network_at := network_at s; fine_sent := fine_sent s |}
  | NetworkTest =>
      match network_at s with
      | Receiver.AtTest =>
          {| fine_globals := fine_globals s;
             fine_encoder := fine_encoder s;
             network_at :=
               if g_finished (fine_globals s) then Receiver.AfterLoop
               else Receiver.InBody;
             fine_sent := fine_sent s |}
      | _ => s
      end
  | NetworkBody =>
      match network_at s with
      | Receiver.InBody =>
          let '(g, datagram) := network_thread_body (fine_globals s) in
          {| fine_globals := g;
             fine_encoder := fine_encoder s;
             network_at := Receiver.AtTest;
             fine_sent :=
               match datagram with
               | Some packet => fine_sent s ++ [packet]
               | None => fine_sent s
               end |}
      | _ => s
      end
  | FlagSet =>
      {| fine_globals := set_finished true (fine_globals s);
         fine_encoder := fine_encoder s;
         network_at := network_at s; fine_sent := fine_sent s |}
  end.

Definition fine_run (s : FineSystem) (schedule : list FineAction)
  : FineSystem :=
  foldl fine_step s schedule.

Definition refine (s : System) : FineSystem :=
  {| fine_globals := globals s;
     fine_encoder := encoder s;
     network_at := Receiver.position_of (network_loop s);
     fine_sent := sent s |}.

Definition fine_actions (a : Action) : list FineAction :=
  match a with
  | Capture frameCount input => [CaptureCall frameCount input]
  | NetworkIter => [NetworkTest; NetworkBody]
  | SetFinished => [FlagSet]
  end.
End sender_run.
Arguments System : clear implicits.
Arguments FineSystem : clear implicits.

End Sender.

(** ** The loopback demo, [realtime_demo.cc] *)

Module Demo.

(** [std::fill(out, out + n, v)] *)
Definition std_fill (n : nat) (v : Z) (out : list Z) : list Z :=
  foldl (fun o i => <[i := v]> o) out (seq 0 n).

(** [std::copy(src.begin(), src.end(), out)] *)
Definition std_copy (src out : list Z) : list Z :=
  foldl (fun o '(i, v) => <[i := v]> o) out (imap pair src).

Section codec.
Context {E D : Type} `{!LyraEncoder E} `{!LyraDecoder D}.

(** [audioCallback] on the global [encoder] and [decoder]. *)
Definition audioCallback (frameCount : nat) (input out : list Z)
    (encoder : E) (decoder : D)
  : list Z * E * D * PaStreamCallbackResult :=
  let silence :=
    std_fill (Z.to_nat (Z.of_nat frameCount * kNumChannels)) 0 out in
  let '(encoded, encoder) := Encode encoder (take frameCount input) in
  match encoded with
  | Some packet =>
      let '(accepted, decoder) := SetEncodedPacket decoder packet in
      if accepted then
        let '(decoded, decoder) :=
          DecodeSamples decoder (Z.of_nat frameCount) in
        match decoded with
        | Some samples =>
            (std_copy samples out, encoder, decoder, paContinue)
        | None => (silence, encoder, decoder, paContinue)
        end
      else (silence, encoder, decoder, paContinue)
  | None => (silence, encoder, decoder, paContinue)
  end.
End codec.

(** What the environment answers to [main]. *)
Record Env : Type := mkEnv {
  encoder_created : bool;
  decoder_created : bool;
  initialize_result : Z;
  default_input_device : Z;
  default_output_device : Z;
  open_stream_result : Z;
  start_stream_result : Z;
  stop_stream_result : Z;
  close_stream_result : Z
}.

(** The label [error:]. *)
Definition error : Trace Outcome :=
  call Pa_Terminate;; mret (Exit 1).

(** The macro [PA_CHECK(err)] applied to a call: its argument is the
    call expression, which the macro expands a second time inside
    [Pa_GetErrorText(err)] on the failing branch. *)
Definition PA_CHECK (e : Event) (err : Z) (continue : Trace Outcome)
  : Trace Outcome :=
  call e;;
  if negb (err =? paNoError) then
    call e;; call Pa_GetErrorText;; error
  else continue.

Definition main (env : Env) : Trace Outcome :=
  call LyraEncoder_Create;;
  call LyraDecoder_Create;;
  if negb (encoder_created env) || negb (decoder_created env) then
    mret (Exit 1)
  else
    PA_CHECK Pa_Initialize (initialize_result env) (
      call Pa_GetDefaultInputDevice;;
      if default_input_device env =? paNoDevice then error
      else
        call Pa_GetDeviceInfo;;
        call Pa_GetDefaultOutputDevice;;
        if default_output_device env =? paNoDevice then error
        else
          call Pa_GetDeviceInfo;;
          PA_CHECK Pa_OpenStream (open_stream_result env) (
            PA_CHECK Pa_StartStream (start_stream_result env) (
              call cin_get;;
              PA_CHECK Pa_StopStream (stop_stream_result env) (
                PA_CHECK Pa_CloseStream (close_stream_result env) (
                  call Pa_Terminate;;
                  mret (Exit 0)))))).

End Demo.

(** ** A codec for tests *)

(** A stand-in for the codec, small enough to run, that shows each
    answer the interface allows.  The decoder keeps the packet it
    accepted last.  It refuses a packet that starts with byte [0xff];
    it produces no frame for a packet that starts with byte [0x00];
    otherwise the frame repeats the value of the packet's first byte
    ([0] for the empty packet). *)
Module TestCodec.

Definition sample_of_byte (b : byte) : Z := Z.of_N (Byte.to_N b).

Definition byte_of_sample (s : Z) : byte :=
  default x00 (Byte.of_N (Z.to_N (s mod 256))).

Global Instance decoder : LyraDecoder (list byte) := {|
  SetEncodedPacket d packet :=
    match packet with
    | xff :: _ => (false, d)
    | _ => (true, packet)
    end;
  DecodeSamples d num_samples :=
    match d with
    | x00 :: _ => (None, d)
    | b :: _ => (Some (replicate (Z.to_nat num_samples) (sample_of_byte b)), d)
    | [] => (Some (replicate (Z.to_nat num_samples) 0), d)
    end
|}.

(** The encoder has no state.  It fails on a frame that starts with a
    negative sample (or has no sample); otherwise the packet is the low
    byte of the first sample. *)
Global Instance encoder : LyraEncoder unit := {|
  Encode e frame :=
    match frame with
    | s :: _ => if s <? 0 then (None, e) else (Some [byte_of_sample s], e)
    | [] => (None, e)
    end
|}.

(** Fifty two-byte packets and the receiver that holds them in its
    jitter buffer, for the test codec. *)
Definition fifty_packets : list (list byte) := replicate 50 [x05; x01].

Definition fifty_empty_packets : list (list byte) := replicate 50 [].

Definition holding (packets : list (list byte))
  : Receiver.System (list byte) :=
  {| Receiver.globals := Receiver.set_jitter packets Receiver.initial;
     Receiver.decoder := [];
     Receiver.network_loop := Receiver.LoopExited;
     Receiver.decoder_loop := Receiver.InLoop;
     Receiver.played := [] |}.

(** The receiver on a POSIX system whose socket was created and bound,
    just started, and after it has received one datagram. *)
Definition started : Receiver.System (list byte) :=
  Receiver.start Posix 0 3 0 [].

Definition after_datagram (payload : list byte)
  : Receiver.System (list byte) :=
  Receiver.run started [Receiver.NetworkIter (Receiver.Datagram payload)].

(** A receiver whose sample queue holds the given samples and whose
    workers have left their loops. *)
Definition holding_samples (samples : list Z)
  : Receiver.System (list byte) :=
  {| Receiver.globals := Receiver.set_pcm samples Receiver.initial;
     Receiver.decoder := [];
     Receiver.network_loop := Receiver.LoopExited;
     Receiver.decoder_loop := Receiver.LoopExited;
     Receiver.played := [] |}.

(** The sender just started, with its network thread in its loop. *)
Definition sender_started : Sender.System unit :=
  {| Sender.globals := Sender.initial;
     Sender.encoder := tt;
     Sender.network_loop := Receiver.InLoop;
     Sender.sent := [] |}.

(** The receiver, in the finer system, with its network thread parked
    in [recvfrom] and its decode worker at the loop test, one packet
    waiting. *)
Definition parked_in_recvfrom : Receiver.FineSystem (list byte) :=
  {| Receiver.fine_globals :=
       Receiver.set_jitter [[x05; x01]] Receiver.initial;
     Receiver.fine_decoder := [];
     Receiver.network_at := Receiver.InBody;
     Receiver.decoder_at := Receiver.AtTest;
     Receiver.fine_played := [] |}.

(** The sender, in the finer system, with its network thread past the
    loop test and two packets waiting. *)
Definition sender_past_test : Sender.FineSystem unit :=
  {| Sender.fine_globals := Sender.set_queue [[x05]; [x06]] Sender.initial;
     Sender.fine_encoder := tt;
     Sender.network_at := Receiver.InBody;
     Sender.fine_sent := [] |}.

(** [n] rounds of one datagram received and one pass of the worker. *)
Definition rounds (n : nat) : list Receiver.Action :=
  concat
    (replicate n
       [Receiver.NetworkIter (Receiver.Datagram [x05; x01]);
        Receiver.DecoderIter]).

End TestCodec.

(** * Properties *)

(** ** Queues *)

Section queue_facts.
Context {T : Type}.
Implicit Types (q : list T) (x : T).

Lemma try_pop_nonempty x q :
  StdQueue.try_pop (x :: q) = (Some x, q).
Proof. reflexivity. Qed.

Lemma try_pop_empty : StdQueue.try_pop (@nil T) = (None, []).
Proof. reflexivity. Qed.

(** The invariant behind FIFO order: what was received so far followed
    by what is still queued is the initial content followed by what was
    pushed so far. *)
Lemma run_conservation (ops : list (StdQueue.op T)) q obs qf :
  StdQueue.run ops q = (obs, qf) ->
  StdQueue.received obs ++ qf = q ++ StdQueue.pushed ops.
Proof.
  revert q obs qf.
  induction ops as [|o ops IH]; intros q obs qf Hrun; simpl in Hrun.
  - inversion Hrun; subst. simpl. by rewrite app_nil_r.
  - destruct o as [x|].
    + apply IH in Hrun. rewrite Hrun. unfold StdQueue.push.
      by rewrite <- app_assoc.
    + destruct q as [|y q'].
      * rewrite try_pop_empty in Hrun.
        destruct (StdQueue.run ops []) as [obs' qf'] eqn:E.
        inversion Hrun; subst. apply IH in E. exact E.
      * rewrite try_pop_nonempty in Hrun.
        destruct (StdQueue.run ops q') as [obs' qf'] eqn:E.
        inversion Hrun; subst. apply IH in E.
        unfold StdQueue.received in *. simpl. f_equal. exact E.
Qed.
End queue_facts.

(** C7.  On a queue, [push] appends at the tail; [try_pop] on a queue
    that is not empty removes the head and returns it, and on an empty
    queue returns nothing and leaves the queue as it is.  Hence over any
    history of pushes and try-pops, the items received so far, followed
    by the items still queued, are the initial items followed by the
    pushed ones, in push order; from an empty queue the consumer receives
    a prefix of what was pushed. *)
Theorem C7_queue_is_fifo {T : Type} :
  (forall (x : T) q, StdQueue.push x q = q ++ [x])
  /\ (forall (x : T) q, StdQueue.try_pop (x :: q) = (Some x, q))
  /\ StdQueue.try_pop (@nil T) = (None, [])
  /\ (forall (ops : list (StdQueue.op T)) q,
        StdQueue.received (StdQueue.run ops q).1 ++ (StdQueue.run ops q).2
        = q ++ StdQueue.pushed ops)
  /\ (forall (ops : list (StdQueue.op T)),
        StdQueue.received (StdQueue.run ops []).1
          `prefix_of` StdQueue.pushed ops).
Proof.
  repeat split.
  - intros ops q. apply run_conservation. by destruct (StdQueue.run ops q).
  - intros ops. exists (StdQueue.run ops []).2.
    symmetry. apply (run_conservation ops []).
    by destruct (StdQueue.run ops []).
Qed.

(** ** The playback callback *)

Section playback_facts.
Implicit Types (out pcm : list Z) (n i : nat).

Lemma audioCallback_body_try_pop out pcm i :
  Receiver.audioCallback_body (out, pcm) i
  = (<[i := default 0 (StdQueue.try_pop pcm).1]> out,
     (StdQueue.try_pop pcm).2).
Proof. by destruct pcm. Qed.

Lemma audioCallback_loop_S n out pcm :
  Receiver.audioCallback_loop (S n) out pcm
  = Receiver.audioCallback_body (Receiver.audioCallback_loop n out pcm) n.
Proof.
  unfold Receiver.audioCallback_loop.
  by rewrite seq_S, foldl_app.
Qed.

Lemma tail_drop {A} (l : list A) n : tail (drop n l) = drop (S n) l.
Proof.
  revert l; induction n as [|n IH]; intros [|x l]; simpl; try done.
  all: try apply IH. all: by rewrite ?drop_0.
Qed.

Lemma head_drop {A} (l : list A) n : head (drop n l) = l !! n.
Proof.
  revert l; induction n as [|n IH]; intros [|x l]; simpl; try done.
  all: apply IH.
Qed.

(** One pass of the loop body in closed form. *)
Lemma audioCallback_body_spec out pcm i :
  Receiver.audioCallback_body (out, pcm) i
  = (<[i := default 0 (head pcm)]> out, tail pcm).
Proof. by destruct pcm. Qed.

(** The queue after [n] positions: [n] samples shorter, or empty. *)
Lemma audioCallback_loop_queue n out pcm :
  (Receiver.audioCallback_loop n out pcm).2 = drop n pcm.
Proof.
  induction n as [|n IH]; [done|].
  rewrite audioCallback_loop_S.
  destruct (Receiver.audioCallback_loop n out pcm) as [o q].
  simpl in IH. subst q. rewrite audioCallback_body_spec. simpl.
  apply tail_drop.
Qed.

Lemma audioCallback_loop_length n out pcm :
  length (Receiver.audioCallback_loop n out pcm).1 = length out.
Proof.
  induction n as [|n IH]; [done|].
  rewrite audioCallback_loop_S.
  destruct (Receiver.audioCallback_loop n out pcm) as [o q].
  rewrite audioCallback_body_spec. simpl in *.
  by rewrite length_insert.
Qed.

(** Positions the loop has passed hold the queued sample of the same
    rank, or silence when the queue had fewer samples. *)
Lemma audioCallback_loop_written n out pcm i :
  (i < n)%nat -> (i < length out)%nat ->
  (Receiver.audioCallback_loop n out pcm).1 !! i
  = Some (default 0 (pcm !! i)).
Proof.
  induction n as [|n IH]; [lia|]. intros Hi Hlen.
  rewrite audioCallback_loop_S.
  pose proof (audioCallback_loop_queue n out pcm) as Hq.
  pose proof (audioCallback_loop_length n out pcm) as Hl.
  destruct (Receiver.audioCallback_loop n out pcm) as [o q].
  rewrite audioCallback_body_spec. simpl in *. subst q.
  destruct (decide (i = n)) as [->|Hne].
  - rewrite list_lookup_insert_eq by lia. by rewrite head_drop.
  - rewrite list_lookup_insert_ne by done. apply IH; lia.
Qed.

(** Positions the loop has not reached keep their content. *)
Lemma audioCallback_loop_untouched n out pcm i :
  (n <= i)%nat ->
  (Receiver.audioCallback_loop n out pcm).1 !! i = out !! i.
Proof.
  induction n as [|n IH]; [done|]. intros Hi.
  rewrite audioCallback_loop_S.
  destruct (Receiver.audioCallback_loop n out pcm) as [o q].
  rewrite audioCallback_body_spec. simpl in *.
  rewrite list_lookup_insert_ne by lia. apply IH; lia.
Qed.
End playback_facts.

Section playback_claims.
Implicit Types (out pcm : list Z) (g : Receiver.Globals).

Lemma audioCallback_out frameCount out g :
  (Receiver.audioCallback frameCount out g).1.1
  = (Receiver.audioCallback_loop frameCount out (Receiver.g_pcm_buffer g)).1.
Proof.
  unfold Receiver.audioCallback.
  by destruct (Receiver.audioCallback_loop _ _ _).
Qed.

Lemma audioCallback_globals frameCount out g :
  (Receiver.audioCallback frameCount out g).1.2
  = Receiver.set_pcm (drop frameCount (Receiver.g_pcm_buffer g)) g.
Proof.
  unfold Receiver.audioCallback.
  pose proof (audioCallback_loop_queue frameCount out
                (Receiver.g_pcm_buffer g)) as Hq.
  destruct (Receiver.audioCallback_loop _ _ _) as [o q].
  simpl in *. by subst q.
Qed.

Lemma audioCallback_result frameCount out g :
  (Receiver.audioCallback frameCount out g).2 = paContinue.
Proof.
  unfold Receiver.audioCallback.
  by destruct (Receiver.audioCallback_loop _ _ _).
Qed.
End playback_claims.

(** C1.  The playback callback, asked for [frameCount] samples.  The
    loop starts on the sample queue as the callback finds it.  At each
    output position, if the queue is not empty when the loop gets there,
    the position receives the head of the queue and that head is popped;
    if the queue is empty there, it stays empty and that position and
    every later position of the frame hold silence (0).  The queue the
    loop ends with is the sample queue the callback leaves behind.  When
    the queue is empty at entry, the whole frame is silence and the
    queue is still empty afterwards. *)
Theorem C1_playback_pops_or_writes_silence
    (frameCount : nat) (out : list Z) (g : Receiver.Globals) :
  (frameCount <= length out)%nat ->
  let out' := (Receiver.audioCallback frameCount out g).1.1 in
  let g' := (Receiver.audioCallback frameCount out g).1.2 in
  let queue_at i :=
    (Receiver.audioCallback_loop i out (Receiver.g_pcm_buffer g)).2 in
  queue_at 0%nat = Receiver.g_pcm_buffer g
  /\ (forall i, (i < frameCount)%nat ->
        match queue_at i with
        | sample :: rest =>
            out' !! i = Some sample /\ queue_at (S i) = rest
        | [] =>
            queue_at (S i) = []
            /\ forall j, (i <= j < frameCount)%nat -> out' !! j = Some 0
        end)
  /\ Receiver.g_pcm_buffer g' = queue_at frameCount
  /\ (Receiver.g_pcm_buffer g = [] ->
      (forall i, (i < frameCount)%nat -> out' !! i = Some 0)
      /\ Receiver.g_pcm_buffer g' = []).
Proof.
  intros Hlen out' g' queue_at. subst out' g' queue_at. simpl.
  rewrite audioCallback_out, audioCallback_globals.
  split; [done|]. split; [|split].
  - intros i Hi. rewrite !audioCallback_loop_queue.
    destruct (drop i (Receiver.g_pcm_buffer g)) as [|sample rest] eqn:E.
    + apply (f_equal length) in E. rewrite length_drop in E. simpl in E.
      split; [apply drop_ge; lia|].
      intros j Hj. rewrite audioCallback_loop_written by lia.
      rewrite (lookup_ge_None_2 _ j); [done|]. lia.
    + split.
      * rewrite audioCallback_loop_written by lia.
        by rewrite <- head_drop, E.
      * by rewrite <- tail_drop, E.
  - simpl. by rewrite audioCallback_loop_queue.
  - intros Hempty. rewrite Hempty. split.
    + intros i Hi. by rewrite audioCallback_loop_written by lia.
    + simpl. by rewrite drop_nil.
Qed.

Lemma C1_playback_pops_or_writes_silence_witness :
  (4 <= length [7; 7; 7; 7; 7])%nat
  /\ (Receiver.audioCallback 4 [7; 7; 7; 7; 7]
        (Receiver.set_pcm [11; 12] Receiver.initial)).1.1 !! 1%nat = Some 12
  /\ (Receiver.audioCallback 4 [7; 7; 7; 7; 7]
        (Receiver.set_pcm [11; 12] Receiver.initial)).1.1 !! 3%nat = Some 0
  /\ Receiver.g_pcm_buffer
       (Receiver.audioCallback 4 [7; 7; 7; 7; 7]
          (Receiver.set_pcm [11; 12; 13; 14; 15; 16] Receiver.initial)).1.2
     = (Receiver.audioCallback_loop 4 [7; 7; 7; 7; 7]
          [11; 12; 13; 14; 15; 16]).2
  /\ (Receiver.audioCallback 4 [7; 7; 7; 7; 7] Receiver.initial).1.1
       !! 0%nat = Some 0
  /\ Receiver.g_pcm_buffer
       (Receiver.audioCallback 4 [7; 7; 7; 7; 7] Receiver.initial).1.2 = [].
Proof.
  assert (H : (4 <= length [7; 7; 7; 7; 7])%nat) by (simpl; lia).
  split; [exact H|].
  destruct (C1_playback_pops_or_writes_silence 4 [7; 7; 7; 7; 7]
              (Receiver.set_pcm [11; 12] Receiver.initial) H)
    as (_ & Hpos & _).
  destruct (C1_playback_pops_or_writes_silence 4 [7; 7; 7; 7; 7]
              (Receiver.set_pcm [11; 12; 13; 14; 15; 16] Receiver.initial)
              H)
    as (_ & _ & Hleft & _).
  destruct (C1_playback_pops_or_writes_silence 4 [7; 7; 7; 7; 7]
              Receiver.initial H) as (_ & _ & _ & Hempty).
  split; [|split; [|split; [|split]]].
  - exact (proj1 (Hpos 1%nat ltac:(lia))).
  - exact (proj2 (Hpos 2%nat ltac:(lia)) 3%nat ltac:(lia)).
  - exact Hleft.
  - exact (proj1 (Hempty eq_refl) 0%nat ltac:(lia)).
  - exact (proj2 (Hempty eq_refl)).
Defined.

(** C9.  A callback asking for [frameCount] samples of a queue holding
    [M] pops the first [min frameCount M] of them, writes each of these
    to the output position of its rank, and leaves the other
    [M - frameCount] (none when [frameCount] exceeds [M]) in the queue,
    in their order; the other globals are not touched. *)
Theorem C9_playback_keeps_excess_samples
    (frameCount : nat) (out : list Z) (g : Receiver.Globals) :
  (frameCount <= length out)%nat ->
  let out' := (Receiver.audioCallback frameCount out g).1.1 in
  let g' := (Receiver.audioCallback frameCount out g).1.2 in
  let pcm := Receiver.g_pcm_buffer g in
  let popped := take frameCount pcm in
  pcm = popped ++ Receiver.g_pcm_buffer g'
  /\ length popped = Nat.min frameCount (length pcm)
  /\ Receiver.g_pcm_buffer g' = drop frameCount pcm
  /\ length (Receiver.g_pcm_buffer g') = (length pcm - frameCount)%nat
  /\ (forall i sample, popped !! i = Some sample -> out' !! i = Some sample)
  /\ Receiver.g_jitter_buffer g' = Receiver.g_jitter_buffer g
  /\ Receiver.g_finished g' = Receiver.g_finished g
  /\ Receiver.g_socket_handle g' = Receiver.g_socket_handle g.
Proof.
  intros Hlen out' g' pcm popped. subst out' g' popped pcm.
  rewrite audioCallback_out, audioCallback_globals. simpl.
  repeat split.
  - by rewrite take_drop.
  - apply length_take.
  - apply length_drop.
  - intros i sample Hi.
    apply lookup_take_Some in Hi as [Hi Hlt].
    rewrite audioCallback_loop_written by lia. by rewrite Hi.
Qed.

Lemma C9_playback_keeps_excess_samples_witness :
  (2 <= length [7; 7; 7])%nat
  /\ Receiver.g_pcm_buffer
       (Receiver.audioCallback 2 [7; 7; 7]
          (Receiver.set_pcm [11; 12; 13; 14] Receiver.initial)).1.2
     = drop 2 [11; 12; 13; 14].
Proof.
  assert (H : (2 <= length [7; 7; 7])%nat) by (simpl; lia).
  split; [exact H|].
  exact (proj1 (proj2 (proj2
    (C9_playback_keeps_excess_samples 2 [7; 7; 7]
       (Receiver.set_pcm [11; 12; 13; 14] Receiver.initial) H)))).
Defined.

(** ** The network receiver *)

Section network_facts.
Implicit Types (g : Receiver.Globals) (payload : list byte).

Lemma recvfrom_datagram payload :
  Receiver.recvfrom (replicate 256 x00) (Receiver.Datagram payload)
  = (Z.of_nat (length (take 256 payload)),
     take 256 payload
       ++ drop (length (take 256 payload)) (replicate 256 x00)).
Proof. unfold Receiver.recvfrom. by rewrite length_replicate. Qed.

(** A datagram with at least one byte is queued, cut to the size of the
    receive buffer. *)
Lemma network_thread_body_datagram payload g :
  payload <> [] ->
  Receiver.network_thread_body (Receiver.Datagram payload) g
  = Receiver.set_jitter
      (Receiver.g_jitter_buffer g ++ [take 256 payload]) g.
Proof.
  intros Hne. unfold Receiver.network_thread_body.
  rewrite recvfrom_datagram.
  assert (0 < length (take 256 payload))%nat as Hpos.
  { destruct payload; [done|]. simpl. lia. }
  destruct (Z.ltb_spec 0 (Z.of_nat (length (take 256 payload))));
    [|lia].
  rewrite Nat2Z.id, resize_app_le by done.
  by rewrite resize_all.
Qed.

Lemma network_thread_body_nothing r g :
  (Receiver.recvfrom (replicate 256 x00) r).1 <= 0 ->
  Receiver.network_thread_body r g = g.
Proof.
  intros Hle. unfold Receiver.network_thread_body.
  destruct (Receiver.recvfrom (replicate 256 x00) r) as [n buf].
  simpl in Hle. by destruct (Z.ltb_spec 0 n); [lia|].
Qed.

Lemma recvfrom_positive r :
  0 < (Receiver.recvfrom (replicate 256 x00) r).1 ->
  exists payload, r = Receiver.Datagram payload /\ payload <> [].
Proof.
  destruct r as [payload|]; simpl; [|lia].
  intros Hpos. exists payload. split; [done|].
  intros ->. simpl in Hpos. lia.
Qed.
End network_facts.

(** C4.  One pass of the receiver loop, entered because the shutdown flag
    is not set.  When [recvfrom] returns a length above 0, the jitter
    buffer gains exactly one packet at its tail, made of exactly the
    bytes received (the datagram, cut to the 256 bytes of the buffer);
    when it returns 0 or an error, the globals are unchanged.  Either way
    nothing else changes and the thread stays in its loop; it leaves the
    loop, queueing nothing, only at a pass that finds the flag set. *)
Theorem C4_receiver_enqueues_exactly_received_bytes
    {D : Type} `{!LyraDecoder D} (s : Receiver.System D)
    (r : Receiver.RecvResult) :
  Receiver.network_loop s = Receiver.InLoop ->
  let s' := Receiver.step s (Receiver.NetworkIter r) in
  let bytes_received := (Receiver.recvfrom (replicate 256 x00) r).1 in
  let buffer := (Receiver.recvfrom (replicate 256 x00) r).2 in
  (Receiver.g_finished (Receiver.globals s) = false ->
     Receiver.network_loop s' = Receiver.InLoop
     /\ (0 < bytes_received ->
           Receiver.g_jitter_buffer (Receiver.globals s')
           = Receiver.g_jitter_buffer (Receiver.globals s)
               ++ [take (Z.to_nat bytes_received) buffer]
           /\ exists payload,
                r = Receiver.Datagram payload
                /\ take (Z.to_nat bytes_received) buffer = take 256 payload
                /\ ((length payload <= 256)%nat ->
                      take (Z.to_nat bytes_received) buffer = payload))
     /\ (bytes_received <= 0 ->
           Receiver.g_jitter_buffer (Receiver.globals s')
           = Receiver.g_jitter_buffer (Receiver.globals s))
     /\ Receiver.g_pcm_buffer (Receiver.globals s')
        = Receiver.g_pcm_buffer (Receiver.globals s)
     /\ Receiver.g_finished (Receiver.globals s') = false
     /\ Receiver.decoder s' = Receiver.decoder s
     /\ Receiver.decoder_loop s' = Receiver.decoder_loop s)
  /\ (Receiver.g_finished (Receiver.globals s) = true ->
        Receiver.network_loop s' = Receiver.LoopExited
        /\ Receiver.globals s' = Receiver.globals s).
Proof.
  intros Hloop s' bytes_received buffer.
  subst s' bytes_received buffer. simpl. rewrite Hloop.
  split; intros Hfin; rewrite Hfin; simpl; [|done].
  split; [done|]. split; [|split].
  - intros Hpos.
    destruct (recvfrom_positive r Hpos) as (payload & -> & Hne).
    rewrite network_thread_body_datagram by done.
    rewrite recvfrom_datagram. simpl.
    rewrite Nat2Z.id, take_app_length.
    split; [done|]. exists payload. split; [done|]. split; [done|].
    intros Hlen. by rewrite take_ge.
  - intros Hle. by rewrite network_thread_body_nothing.
  - destruct (Z.lt_ge_cases 0 (Receiver.recvfrom (replicate 256 x00) r).1)
      as [Hpos|Hle].
    + destruct (recvfrom_positive r Hpos) as (payload & -> & Hne).
      by rewrite network_thread_body_datagram.
    + by rewrite network_thread_body_nothing.
Qed.

(** ** The decode worker *)

Section decoder_facts.
Context {D : Type} `{!LyraDecoder D}.
Implicit Types (d : D) (g : Receiver.Globals) (s : Receiver.System D).

(** Pushing the samples of a frame one by one appends the frame. *)
Lemma push_samples_app (samples pcm : list Z) :
  Receiver.push_samples samples pcm = pcm ++ samples.
Proof.
  revert pcm. induction samples as [|x samples IH]; intros pcm.
  - by rewrite app_nil_r.
  - unfold Receiver.push_samples in *. simpl. rewrite IH.
    unfold StdQueue.push. by rewrite <- app_assoc.
Qed.

(** The loop body on a jitter buffer whose head is a packet with at
    least one byte. *)
Lemma decoder_thread_body_packet d g packet rest :
  Receiver.g_jitter_buffer g = packet :: rest ->
  packet <> [] ->
  Receiver.decoder_thread_body d g
  = let '(accepted, d1) := SetEncodedPacket d packet in
    if accepted then
      let '(decoded, d2) := DecodeSamples d1 kFramesPerBuffer in
      match decoded with
      | Some samples =>
          (d2, Receiver.set_pcm (Receiver.g_pcm_buffer g ++ samples)
                 (Receiver.set_jitter rest g))
      | None => (d2, Receiver.set_jitter rest g)
      end
    else (d1, Receiver.set_jitter rest g).
Proof.
  intros Hq Hne. unfold Receiver.decoder_thread_body.
  rewrite Hq, try_pop_nonempty. simpl.
  destruct packet as [|b packet]; [done|]. simpl.
  destruct (SetEncodedPacket d (b :: packet)) as [[] d1]; [|done].
  destruct (DecodeSamples d1 kFramesPerBuffer) as [[samples|] d2];
    [|done].
  by rewrite push_samples_app.
Qed.

(** The empty vector is the worker's mark for having taken no packet:
    an empty packet is removed from the queue and not decoded. *)
Lemma decoder_thread_body_empty_packet d g rest :
  Receiver.g_jitter_buffer g = [] :: rest ->
  Receiver.decoder_thread_body d g = (d, Receiver.set_jitter rest g).
Proof.
  intros Hq. unfold Receiver.decoder_thread_body.
  by rewrite Hq, try_pop_nonempty.
Qed.

Lemma decoder_thread_body_idle d g :
  Receiver.g_jitter_buffer g = [] ->
  Receiver.decoder_thread_body d g = (d, Receiver.set_jitter [] g).
Proof.
  intros Hq. unfold Receiver.decoder_thread_body.
  by rewrite Hq, try_pop_empty.
Qed.

(** The worker never removes a sample: the sample queue before a pass
    is a prefix of the sample queue after it. *)
Lemma decoder_thread_body_keeps_samples d g :
  Receiver.g_pcm_buffer g
    `prefix_of` Receiver.g_pcm_buffer (Receiver.decoder_thread_body d g).2.
Proof.
  destruct (Receiver.g_jitter_buffer g) as [|packet rest] eqn:Hq.
  - by rewrite decoder_thread_body_idle.
  - destruct (decide (packet = [])) as [->|Hne].
    + by rewrite (decoder_thread_body_empty_packet d g rest).
    + rewrite (decoder_thread_body_packet d g packet rest) by done.
      destruct (SetEncodedPacket d packet) as [[] d1]; [|done].
      destruct (DecodeSamples d1 kFramesPerBuffer) as [[samples|] d2];
        [|done].
      simpl. by apply prefix_app_r.
Qed.

(** *** Packets in the jitter buffer have at least one byte *)

Lemma network_thread_body_nonempty r g :
  Forall (fun packet : list byte => packet <> [])
    (Receiver.g_jitter_buffer g) ->
  Forall (fun packet : list byte => packet <> [])
    (Receiver.g_jitter_buffer (Receiver.network_thread_body r g)).
Proof.
  intros Hinv.
  destruct (Z.lt_ge_cases 0 (Receiver.recvfrom (replicate 256 x00) r).1)
    as [Hpos|Hle].
  - destruct (recvfrom_positive r Hpos) as (payload & -> & Hne).
    rewrite network_thread_body_datagram by done. simpl.
    apply Forall_app. split; [done|].
    apply Forall_singleton. by destruct payload.
  - by rewrite network_thread_body_nothing.
Qed.

Lemma decoder_thread_body_jitter d g :
  Receiver.g_jitter_buffer (Receiver.decoder_thread_body d g).2
  = tail (Receiver.g_jitter_buffer g).
Proof.
  destruct (Receiver.g_jitter_buffer g) as [|packet rest] eqn:Hq.
  - by rewrite decoder_thread_body_idle.
  - destruct (decide (packet = [])) as [->|Hne].
    + by rewrite (decoder_thread_body_empty_packet d g rest).
    + rewrite (decoder_thread_body_packet d g packet rest) by done.
      destruct (SetEncodedPacket d packet) as [[] d1]; [|done].
      by destruct (DecodeSamples d1 kFramesPerBuffer) as [[samples|] d2].
Qed.

Lemma step_packets_nonempty s a :
  Receiver.packets_nonempty s -> Receiver.packets_nonempty (Receiver.step s a).
Proof.
  unfold Receiver.packets_nonempty. intros Hinv.
  destruct a as [r| |frameCount out|]; simpl.
  - destruct (Receiver.network_loop s); [|done].
    destruct (Receiver.g_finished (Receiver.globals s)); [done|].
    simpl. by apply network_thread_body_nonempty.
  - destruct (Receiver.decoder_loop s); [|done].
    destruct (Receiver.g_finished (Receiver.globals s)); [done|].
    pose proof (decoder_thread_body_jitter (Receiver.decoder s)
                  (Receiver.globals s)) as Hj.
    destruct (Receiver.decoder_thread_body _ _) as [d g]. simpl in *.
    rewrite Hj.
    destruct (Receiver.g_jitter_buffer (Receiver.globals s)); [done|].
    by apply Forall_cons in Hinv as [_ ?].
  - pose proof (audioCallback_globals frameCount out (Receiver.globals s))
      as Hg.
    destruct (Receiver.audioCallback _ _ _) as [[out' g] ret].
    simpl in *. by subst g.
  - done.
Qed.

Lemma run_packets_nonempty s schedule :
  Receiver.packets_nonempty s -> Receiver.packets_nonempty (Receiver.run s schedule).
Proof.
  revert s. induction schedule as [|a schedule IH]; intros s Hinv.
  - done.
  - simpl. apply IH. by apply step_packets_nonempty.
Qed.

Lemma reachable_packets_nonempty s :
  Receiver.reachable s -> Receiver.packets_nonempty s.
Proof.
  intros (platform & wsa & fd & bind_result & d & schedule & ->).
  apply run_packets_nonempty.
  unfold Receiver.packets_nonempty, Receiver.start, Receiver.network_thread_setup.
  repeat case_match; simplify_eq; simpl; constructor.
Qed.
End decoder_facts.

Section decoder_runs.
Context {D : Type} `{!LyraDecoder D}.
Implicit Types (d : D) (g : Receiver.Globals) (s : Receiver.System D).

(** A pass of the worker that finds the flag clear and a packet with at
    least one byte at the head of the jitter buffer. *)
Lemma step_decoder_packet s packet rest :
  Receiver.decoder_loop s = Receiver.InLoop ->
  Receiver.g_finished (Receiver.globals s) = false ->
  Receiver.g_jitter_buffer (Receiver.globals s) = packet :: rest ->
  packet <> [] ->
  Receiver.step s Receiver.DecoderIter
  = let '(d', g') :=
      Receiver.decoder_thread_body (Receiver.decoder s)
        (Receiver.globals s) in
    {| Receiver.globals := g'; Receiver.decoder := d';
       Receiver.network_loop := Receiver.network_loop s;
       Receiver.decoder_loop := Receiver.InLoop;
       Receiver.played := Receiver.played s |}.
Proof. intros Hloop Hfin _ _. simpl. by rewrite Hloop, Hfin. Qed.

Lemma decode_frames_length d packets frames :
  Receiver.decode_frames d packets = Some frames ->
  length frames = length packets.
Proof.
  revert d frames.
  induction packets as [|packet packets IH]; intros d frames Hdec.
  - by inversion Hdec.
  - simpl in Hdec.
    destruct (SetEncodedPacket d packet) as [[] d1]; [|done].
    destruct (DecodeSamples d1 kFramesPerBuffer) as [[frame|] d2];
      [|done].
    destruct (Receiver.decode_frames d2 packets) as [frames'|] eqn:E;
      [|done].
    inversion Hdec; subst. simpl. f_equal. by apply (IH d2).
Qed.

Lemma length_concat_uniform (frames : list (list Z)) (k : nat) :
  Forall (fun frame => length frame = k) frames ->
  length (concat frames) = (length frames * k)%nat.
Proof.
  induction 1 as [|frame frames Hk _ IH]; [done|].
  simpl. rewrite length_app, IH, Hk. lia.
Qed.

(** The worker, left alone with a jitter buffer of packets the codec
    decodes one after the other, empties the buffer in as many passes
    as there are packets and appends their frames, in packet order, to
    the sample queue. *)
Lemma run_decoder_drains packets : forall s frames,
  Forall (fun packet : list byte => packet <> []) packets ->
  Receiver.decode_frames (Receiver.decoder s) packets = Some frames ->
  Receiver.g_jitter_buffer (Receiver.globals s) = packets ->
  Receiver.g_finished (Receiver.globals s) = false ->
  Receiver.decoder_loop s = Receiver.InLoop ->
  let s' :=
    Receiver.run s (replicate (length packets) Receiver.DecoderIter) in
  Receiver.g_jitter_buffer (Receiver.globals s') = []
  /\ Receiver.g_pcm_buffer (Receiver.globals s')
     = Receiver.g_pcm_buffer (Receiver.globals s) ++ concat frames
  /\ Receiver.g_finished (Receiver.globals s') = false
  /\ Receiver.decoder_loop s' = Receiver.InLoop.
Proof.
  induction packets as [|packet packets IH];
    intros s frames Hne Hdec Hq Hfin Hloop.
  - inversion Hdec; subst. simpl. by rewrite app_nil_r.
  - apply Forall_cons in Hne as [Hne Hrest].
    simpl in Hdec.
    destruct (SetEncodedPacket (Receiver.decoder s) packet)
      as [accepted d1] eqn:Hset.
    destruct accepted; [|done].
    destruct (DecodeSamples d1 kFramesPerBuffer) as [decoded d2] eqn:Hsam.
    destruct decoded as [frame|]; [|done].
    destruct (Receiver.decode_frames d2 packets) as [frames'|] eqn:E;
      [|done].
    inversion Hdec; subst frames. clear Hdec.
    cbn [length replicate Receiver.run foldl].
    rewrite (step_decoder_packet s packet packets) by done.
    rewrite (decoder_thread_body_packet _ _ packet packets) by done.
    rewrite Hset, Hsam.
    match goal with
    | |- context [foldl Receiver.step ?s1 _] =>
        destruct (IH s1 frames') as (Hj & Hp & Hf & Hl); try done
    end.
    unfold Receiver.run in *. rewrite Hj, Hp, Hf, Hl. simpl.
    by rewrite <- app_assoc.
Qed.
(** What a pass of the worker does with a packet of at least one byte,
    by the answers of the codec. *)
Lemma decoder_pass s packet rest :
  packet <> [] ->
  Receiver.decoder_loop s = Receiver.InLoop ->
  Receiver.g_finished (Receiver.globals s) = false ->
  Receiver.g_jitter_buffer (Receiver.globals s) = packet :: rest ->
  let s' := Receiver.step s Receiver.DecoderIter in
  let pcm := Receiver.g_pcm_buffer (Receiver.globals s) in
  let pcm' := Receiver.g_pcm_buffer (Receiver.globals s') in
  Receiver.g_jitter_buffer (Receiver.globals s') = rest
  /\ Receiver.decoder_loop s' = Receiver.InLoop
  /\ (forall d1,
        SetEncodedPacket (Receiver.decoder s) packet = (false, d1) ->
        pcm' = pcm)
  /\ (forall d1 d2,
        SetEncodedPacket (Receiver.decoder s) packet = (true, d1) ->
        DecodeSamples d1 kFramesPerBuffer = (None, d2) ->
        pcm' = pcm)
  /\ (forall d1 d2 samples,
        SetEncodedPacket (Receiver.decoder s) packet = (true, d1) ->
        DecodeSamples d1 kFramesPerBuffer = (Some samples, d2) ->
        pcm' = pcm ++ samples).
Proof.
  intros Hne Hloop Hfin Hq s' pcm pcm'. subst s' pcm pcm'.
  rewrite (step_decoder_packet s packet rest) by done.
  rewrite (decoder_thread_body_packet _ _ packet rest) by done.
  destruct (SetEncodedPacket (Receiver.decoder s) packet)
    as [accepted d1] eqn:Hset.
  destruct accepted.
  - destruct (DecodeSamples d1 kFramesPerBuffer) as [decoded d2] eqn:Hsam.
    destruct decoded as [frame|]; simpl.
    + repeat split; try done.
      * intros d1' d2' Heq. inversion Heq; subst. by rewrite Hsam.
      * intros d1' d2' samples Heq. inversion Heq; subst.
        rewrite Hsam. by inversion 1.
    + repeat split; try done.
      intros d1' d2' samples Heq. inversion Heq; subst. by rewrite Hsam.
  - simpl. repeat split; done.
Qed.
End decoder_runs.

(** C5.  In a running receiver, a pass of the decode worker that takes a
    packet from the jitter buffer removes it from the buffer.  When the
    codec refuses the packet, or accepts it and produces no frame,
    nothing is enqueued: the sample queue is unchanged.  When the codec
    accepts it and produces a frame, the samples of the frame are
    appended to the sample queue in frame order.  In every case the
    worker stays in its loop. *)
Theorem C5_decode_failure_skips_and_success_enqueues
    {D : Type} `{!LyraDecoder D} (s : Receiver.System D)
    (packet : list byte) (rest : list (list byte)) :
  Receiver.reachable s ->
  Receiver.decoder_loop s = Receiver.InLoop ->
  Receiver.g_finished (Receiver.globals s) = false ->
  Receiver.g_jitter_buffer (Receiver.globals s) = packet :: rest ->
  let s' := Receiver.step s Receiver.DecoderIter in
  let pcm := Receiver.g_pcm_buffer (Receiver.globals s) in
  let pcm' := Receiver.g_pcm_buffer (Receiver.globals s') in
  Receiver.g_jitter_buffer (Receiver.globals s') = rest
  /\ Receiver.decoder_loop s' = Receiver.InLoop
  /\ (forall d1,
        SetEncodedPacket (Receiver.decoder s) packet = (false, d1) ->
        pcm' = pcm)
  /\ (forall d1 d2,
        SetEncodedPacket (Receiver.decoder s) packet = (true, d1) ->
        DecodeSamples d1 kFramesPerBuffer = (None, d2) ->
        pcm' = pcm)
  /\ (forall d1 d2 samples,
        SetEncodedPacket (Receiver.decoder s) packet = (true, d1) ->
        DecodeSamples d1 kFramesPerBuffer = (Some samples, d2) ->
        pcm' = pcm ++ samples).
Proof.
  intros Hreach Hloop Hfin Hq.
  apply reachable_packets_nonempty in Hreach.
  unfold Receiver.packets_nonempty in Hreach. rewrite Hq in Hreach.
  apply Forall_cons in Hreach as [Hne _].
  by apply decoder_pass.
Qed.

Lemma C5_decode_failure_skips_and_success_enqueues_witness :
  Receiver.reachable (TestCodec.after_datagram [xff; x01])
  /\ Receiver.reachable (TestCodec.after_datagram [x05; x01])
  /\ Receiver.g_pcm_buffer
       (Receiver.globals
          (Receiver.step (TestCodec.after_datagram [xff; x01])
             Receiver.DecoderIter)) = []
  /\ Receiver.g_pcm_buffer
       (Receiver.globals
          (Receiver.step (TestCodec.after_datagram [x05; x01])
             Receiver.DecoderIter))
     = [] ++ replicate 320 5.
Proof.
  assert (Hr : Receiver.reachable (TestCodec.after_datagram [xff; x01])).
  { exists Posix, 0, 3, 0, [],
      [Receiver.NetworkIter (Receiver.Datagram [xff; x01])].
    reflexivity. }
  assert (Hd : Receiver.reachable (TestCodec.after_datagram [x05; x01])).
  { exists Posix, 0, 3, 0, [],
      [Receiver.NetworkIter (Receiver.Datagram [x05; x01])].
    reflexivity. }
  split; [exact Hr|]. split; [exact Hd|]. split.
  - destruct (C5_decode_failure_skips_and_success_enqueues
                (TestCodec.after_datagram [xff; x01]) [xff; x01] []
                Hr eq_refl eq_refl eq_refl)
      as (_ & _ & Hrefuse & _).
    exact (Hrefuse [] eq_refl).
  - destruct (C5_decode_failure_skips_and_success_enqueues
                (TestCodec.after_datagram [x05; x01]) [x05; x01] []
                Hd eq_refl eq_refl eq_refl)
      as (_ & _ & _ & _ & Hsuccess).
    exact (Hsuccess [x05; x01] [x05; x01] (replicate 320 5)
             eq_refl eq_refl).
Defined.

Lemma C4_receiver_enqueues_exactly_received_bytes_witness :
  Receiver.network_loop TestCodec.started = Receiver.InLoop
  /\ Receiver.g_jitter_buffer
       (Receiver.globals
          (Receiver.step TestCodec.started
             (Receiver.NetworkIter (Receiver.Datagram [x05; x01]))))
     = [] ++ [[x05; x01]]
  /\ Receiver.g_jitter_buffer
       (Receiver.globals
          (Receiver.step TestCodec.started
             (Receiver.NetworkIter Receiver.RecvError)))
     = [].
Proof.
  assert (Hloop : Receiver.network_loop TestCodec.started = Receiver.InLoop)
    by reflexivity.
  split; [exact Hloop|]. split.
  - destruct (C4_receiver_enqueues_exactly_received_bytes TestCodec.started
                (Receiver.Datagram [x05; x01]) Hloop) as [Hrun _].
    destruct (Hrun eq_refl) as (_ & Hpos & _).
    exact (proj1 (Hpos ltac:(reflexivity))).
  - destruct (C4_receiver_enqueues_exactly_received_bytes TestCodec.started
                Receiver.RecvError Hloop) as [Hrun _].
    destruct (Hrun eq_refl) as (_ & _ & Hneg & _).
    apply Hneg. simpl. lia.
Defined.

(** C6, as amended.  Fifty packets, each with at least one byte, that the
    codec decodes one after the other into frames of 320 samples, are in
    the jitter buffer; the sample queue is empty.  After fifty passes of
    the decode worker, with no other thread running, the jitter buffer is
    empty and the sample queue holds the fifty frames joined in packet
    order, 16000 samples. *)
Theorem C6_fifty_packets_decode_to_16000_samples
    {D : Type} `{!LyraDecoder D} (s : Receiver.System D)
    (packets : list (list byte)) (frames : list (list Z)) :
  length packets = 50%nat ->
  Forall (fun packet : list byte => packet <> []) packets ->
  Receiver.decode_frames (Receiver.decoder s) packets = Some frames ->
  Forall (fun frame => length frame = 320%nat) frames ->
  Receiver.g_jitter_buffer (Receiver.globals s) = packets ->
  Receiver.g_pcm_buffer (Receiver.globals s) = [] ->
  Receiver.g_finished (Receiver.globals s) = false ->
  Receiver.decoder_loop s = Receiver.InLoop ->
  let s' := Receiver.run s (replicate 50 Receiver.DecoderIter) in
  Receiver.g_jitter_buffer (Receiver.globals s') = []
  /\ Receiver.g_pcm_buffer (Receiver.globals s') = concat frames
  /\ Z.of_nat (length (Receiver.g_pcm_buffer (Receiver.globals s')))
     = 16000.
Proof.
  intros Hlen Hne Hdec Hframes Hq Hpcm Hfin Hloop s'. subst s'.
  destruct (run_decoder_drains packets s frames Hne Hdec Hq Hfin Hloop)
    as (Hj & Hp & _).
  rewrite Hlen in Hj, Hp. rewrite Hpcm, app_nil_l in Hp.
  split; [exact Hj|]. split; [exact Hp|].
  rewrite Hp, (length_concat_uniform frames 320) by exact Hframes.
  rewrite (decode_frames_length _ _ _ Hdec), Hlen. reflexivity.
Qed.

Lemma C6_fifty_packets_decode_to_16000_samples_witness :
  length TestCodec.fifty_packets = 50%nat
  /\ Receiver.decode_frames [] TestCodec.fifty_packets
     = Some (replicate 50 (replicate 320 5))
  /\ Z.of_nat
       (length
          (Receiver.g_pcm_buffer
             (Receiver.globals
                (Receiver.run (TestCodec.holding TestCodec.fifty_packets)
                   (replicate 50 Receiver.DecoderIter))))) = 16000.
Proof.
  assert (Hlen : length TestCodec.fifty_packets = 50%nat) by reflexivity.
  assert (Hdec : Receiver.decode_frames [] TestCodec.fifty_packets
                 = Some (replicate 50 (replicate 320 5)))
    by (vm_compute; reflexivity).
  split; [exact Hlen|]. split; [exact Hdec|].
  refine (proj2 (proj2
    (C6_fifty_packets_decode_to_16000_samples (TestCodec.holding TestCodec.fifty_packets)
       TestCodec.fifty_packets (replicate 50 (replicate 320 5))
       Hlen _ Hdec _ eq_refl eq_refl eq_refl eq_refl))).
  - apply Forall_replicate. discriminate.
  - apply Forall_replicate. apply length_replicate.
Defined.

(** C6 as stated fails on packets without a byte: the test codec decodes
    each of fifty empty packets into a frame of 320 samples, yet the
    worker, for which an empty vector means that it took no packet,
    drains the jitter buffer and enqueues nothing. *)
Lemma C6_counterexample_empty_packets :
  length TestCodec.fifty_empty_packets = 50%nat
  /\ Receiver.decode_frames [] TestCodec.fifty_empty_packets
     = Some (replicate 50 (replicate 320 0))
  /\ Forall (fun frame : list Z => length frame = 320%nat)
       (replicate 50 (replicate 320 0))
  /\ Receiver.g_jitter_buffer
       (Receiver.globals
          (Receiver.run (TestCodec.holding TestCodec.fifty_empty_packets)
             (replicate 50 Receiver.DecoderIter))) = []
  /\ Receiver.g_pcm_buffer
       (Receiver.globals
          (Receiver.run (TestCodec.holding TestCodec.fifty_empty_packets)
             (replicate 50 Receiver.DecoderIter))) = []
  /\ Z.of_nat
       (length
          (Receiver.g_pcm_buffer
             (Receiver.globals
                (Receiver.run
                   (TestCodec.holding TestCodec.fifty_empty_packets)
                   (replicate 50 Receiver.DecoderIter))))) <> 16000.
Proof.
  split; [reflexivity|].
  split; [vm_compute; reflexivity|].
  split; [apply Forall_replicate, length_replicate|].
  split; [vm_compute; reflexivity|].
  split; [vm_compute; reflexivity|].
  vm_compute. discriminate.
Qed.

(** *** No bound on the sample queue *)

Section depth_facts.
Implicit Types (s : Receiver.System (list byte)).

(** One datagram received and decoded with the test codec: 320 more
    samples in the queue. *)
Lemma test_round s :
  Receiver.network_loop s = Receiver.InLoop ->
  Receiver.decoder_loop s = Receiver.InLoop ->
  Receiver.g_finished (Receiver.globals s) = false ->
  Receiver.g_jitter_buffer (Receiver.globals s) = [] ->
  let s' :=
    Receiver.run s
      [Receiver.NetworkIter (Receiver.Datagram [x05; x01]);
       Receiver.DecoderIter] in
  Receiver.network_loop s' = Receiver.InLoop
  /\ Receiver.decoder_loop s' = Receiver.InLoop
  /\ Receiver.g_finished (Receiver.globals s') = false
  /\ Receiver.g_jitter_buffer (Receiver.globals s') = []
  /\ length (Receiver.g_pcm_buffer (Receiver.globals s'))
     = (length (Receiver.g_pcm_buffer (Receiver.globals s)) + 320)%nat.
Proof.
  intros Hn Hd Hf Hj.
  cbn [Receiver.run foldl].
  set (s1 := Receiver.step s _).
  assert (Receiver.globals s1
          = Receiver.set_jitter [[x05; x01]] (Receiver.globals s)
          /\ Receiver.decoder s1 = Receiver.decoder s
          /\ Receiver.network_loop s1 = Receiver.InLoop
          /\ Receiver.decoder_loop s1 = Receiver.InLoop)
    as (Hg1 & Hd1 & Hn1 & Hl1).
  { subst s1. simpl. rewrite Hn, Hf. simpl.
    rewrite network_thread_body_datagram by done. by rewrite Hj, Hd. }
  rewrite (step_decoder_packet s1 [x05; x01] [])
    by (by rewrite ?Hg1; simpl).
  rewrite (decoder_thread_body_packet _ _ [x05; x01] [])
    by (by rewrite ?Hg1; simpl).
  rewrite Hg1, Hn1. simpl.
  repeat split; try done.
  rewrite length_app. f_equal.
Qed.

(** The depth after [n] such rounds. *)
Lemma test_rounds (n : nat) : forall s,
  Receiver.network_loop s = Receiver.InLoop ->
  Receiver.decoder_loop s = Receiver.InLoop ->
  Receiver.g_finished (Receiver.globals s) = false ->
  Receiver.g_jitter_buffer (Receiver.globals s) = [] ->
  length
    (Receiver.g_pcm_buffer
       (Receiver.globals (Receiver.run s (TestCodec.rounds n))))
  = (length (Receiver.g_pcm_buffer (Receiver.globals s)) + 320 * n)%nat.
Proof.
  induction n as [|n IH]; intros s Hn Hd Hf Hj.
  - simpl. lia.
  - destruct (test_round s Hn Hd Hf Hj) as (Hn' & Hd' & Hf' & Hj' & Hlen).
    unfold TestCodec.rounds in *. cbn [replicate concat].
    unfold Receiver.run in *. rewrite foldl_app.
    rewrite IH by done. rewrite Hlen. lia.
Qed.
End depth_facts.

(** C8 as stated fails: no depth bounds the sample queue.  Whatever the
    cap, the receiver reaches a state whose sample queue is deeper. *)
Lemma C8_counterexample_no_depth_cap :
  ~ exists max_depth : nat,
      forall s : Receiver.System (list byte),
        Receiver.reachable s ->
        (length (Receiver.g_pcm_buffer (Receiver.globals s))
         <= max_depth)%nat.
Proof.
  intros [max_depth Hcap].
  specialize (Hcap
    (Receiver.run (Receiver.start Posix 0 3 0 []) (TestCodec.rounds (S max_depth)))).
  rewrite test_rounds in Hcap by reflexivity.
  simpl in Hcap.
  assert (Hreach : Receiver.reachable
            (Receiver.run (Receiver.start Posix 0 3 0 ([] : list byte))
               (TestCodec.rounds (S max_depth)))).
  { by exists Posix, 0, 3, 0, [], (TestCodec.rounds (S max_depth)). }
  specialize (Hcap Hreach). lia.
Qed.

(** The network thread leaves the sample queue alone. *)
Lemma network_thread_body_pcm r g :
  Receiver.g_pcm_buffer (Receiver.network_thread_body r g)
  = Receiver.g_pcm_buffer g.
Proof.
  destruct (Z.lt_ge_cases 0 (Receiver.recvfrom (replicate 256 x00) r).1)
    as [Hpos|Hle].
  - destruct (recvfrom_positive r Hpos) as (payload & -> & Hne).
    by rewrite network_thread_body_datagram.
  - by rewrite network_thread_body_nothing.
Qed.

(** C8, as amended.  The decode worker enforces no maximum depth of the
    sample queue and drops no sample.  When the codec decodes the packet
    the worker took, the frame is appended whatever the depth, which
    grows by the length of the frame.  No step other than the playback
    callback removes a sample: a pass of the decode worker, a pass of
    the network thread and the setting of the shutdown flag leave every
    queued sample in place, the oldest at the head. *)
Theorem C8_decode_worker_appends_without_cap
    {D : Type} `{!LyraDecoder D} (s : Receiver.System D)
    (packet : list byte) (rest : list (list byte))
    (d1 d2 : D) (samples : list Z) :
  Receiver.reachable s ->
  Receiver.decoder_loop s = Receiver.InLoop ->
  Receiver.g_finished (Receiver.globals s) = false ->
  Receiver.g_jitter_buffer (Receiver.globals s) = packet :: rest ->
  SetEncodedPacket (Receiver.decoder s) packet = (true, d1) ->
  DecodeSamples d1 kFramesPerBuffer = (Some samples, d2) ->
  let pcm := Receiver.g_pcm_buffer (Receiver.globals s) in
  let pcm' :=
    Receiver.g_pcm_buffer
      (Receiver.globals (Receiver.step s Receiver.DecoderIter)) in
  pcm' = pcm ++ samples
  /\ length pcm' = (length pcm + length samples)%nat
  /\ forall (s0 : Receiver.System D) (a : Receiver.Action),
       (forall frameCount out, a <> Receiver.Callback frameCount out) ->
       Receiver.g_pcm_buffer (Receiver.globals s0)
         `prefix_of`
       Receiver.g_pcm_buffer (Receiver.globals (Receiver.step s0 a)).
Proof.
  intros Hreach Hloop Hfin Hq Hset Hsam pcm pcm'. subst pcm pcm'.
  apply reachable_packets_nonempty in Hreach.
  unfold Receiver.packets_nonempty in Hreach. rewrite Hq in Hreach.
  apply Forall_cons in Hreach as [Hne _].
  destruct (decoder_pass s packet rest Hne Hloop Hfin Hq)
    as (_ & _ & _ & _ & Hsuccess).
  rewrite (Hsuccess d1 d2 samples Hset Hsam).
  split; [done|]. split; [by rewrite length_app|].
  intros s0 a Hnot. destruct a as [r| |frameCount out|]; simpl.
  - destruct (Receiver.network_loop s0); [|done].
    destruct (Receiver.g_finished (Receiver.globals s0)); [done|].
    simpl. by rewrite network_thread_body_pcm.
  - destruct (Receiver.decoder_loop s0); [|done].
    destruct (Receiver.g_finished (Receiver.globals s0)); [done|].
    pose proof (decoder_thread_body_keeps_samples (Receiver.decoder s0)
                  (Receiver.globals s0)) as Hkeep.
    by destruct (Receiver.decoder_thread_body _ _).
  - by destruct (Hnot frameCount out).
  - done.
Qed.

Lemma C8_decode_worker_appends_without_cap_witness :
  Receiver.reachable (TestCodec.after_datagram [x05; x01])
  /\ length
       (Receiver.g_pcm_buffer
          (Receiver.globals
             (Receiver.step (TestCodec.after_datagram [x05; x01])
                Receiver.DecoderIter)))
     = (length
          (Receiver.g_pcm_buffer
             (Receiver.globals (TestCodec.after_datagram [x05; x01])))
        + length (replicate 320 5))%nat
  /\ Receiver.g_pcm_buffer
       (Receiver.globals (TestCodec.after_datagram [x05; x01]))
       `prefix_of`
     Receiver.g_pcm_buffer
       (Receiver.globals
          (Receiver.step (TestCodec.after_datagram [x05; x01])
             (Receiver.NetworkIter Receiver.RecvError))).
Proof.
  assert (Hr : Receiver.reachable (TestCodec.after_datagram [x05; x01])).
  { exists Posix, 0, 3, 0, [],
      [Receiver.NetworkIter (Receiver.Datagram [x05; x01])].
    reflexivity. }
  split; [exact Hr|].
  destruct (C8_decode_worker_appends_without_cap
              (TestCodec.after_datagram [x05; x01]) [x05; x01] []
              [x05; x01] [x05; x01] (replicate 320 5)
              Hr eq_refl eq_refl eq_refl eq_refl eq_refl)
    as (_ & Hlen & Hkeep).
  split; [exact Hlen|].
  apply (Hkeep (TestCodec.after_datagram [x05; x01])
           (Receiver.NetworkIter Receiver.RecvError)).
  intros frameCount out. discriminate.
Defined.

(** ** The loopback demo's callback *)

Section demo_facts.
Implicit Types (out : list Z) (n i : nat) (v : Z).

Lemma std_fill_S n v out :
  Demo.std_fill (S n) v out = <[n := v]> (Demo.std_fill n v out).
Proof. unfold Demo.std_fill. by rewrite seq_S, foldl_app. Qed.

Lemma std_fill_length n v out :
  length (Demo.std_fill n v out) = length out.
Proof.
  induction n as [|n IH]; [done|].
  by rewrite std_fill_S, length_insert.
Qed.

Lemma std_fill_lookup n v out i :
  (i < n)%nat -> (i < length out)%nat ->
  Demo.std_fill n v out !! i = Some v.
Proof.
  induction n as [|n IH]; [lia|]. intros Hi Hlen.
  rewrite std_fill_S.
  destruct (decide (i = n)) as [->|Hne].
  - by rewrite list_lookup_insert_eq by (rewrite std_fill_length; lia).
  - rewrite list_lookup_insert_ne by done. apply IH; lia.
Qed.

Lemma std_fill_untouched n v out i :
  (n <= i)%nat -> Demo.std_fill n v out !! i = out !! i.
Proof.
  induction n as [|n IH]; [done|]. intros Hi.
  rewrite std_fill_S, list_lookup_insert_ne by lia. apply IH; lia.
Qed.

Lemma frame_samples (frameCount : nat) :
  Z.to_nat (Z.of_nat frameCount * kNumChannels) = frameCount.
Proof. unfold kNumChannels. lia. Qed.
End demo_facts.

(** C10.  The loopback demo's callback returns [paContinue] whatever
    happens.  When the encoder yields no packet, when the decoder refuses
    the packet, and when the decoder yields no frame, the first
    [frameCount] samples of the output buffer, the whole frame, are 0. *)
Theorem C10_demo_callback_silent_on_failure_and_continues
    {E D : Type} `{!LyraEncoder E} `{!LyraDecoder D}
    (frameCount : nat) (input out : list Z) (encoder : E) (decoder : D) :
  (frameCount <= length out)%nat ->
  let result := Demo.audioCallback frameCount input out encoder decoder in
  let out' := result.1.1.1 in
  let frame := take frameCount input in
  let silent := forall i, (i < frameCount)%nat -> out' !! i = Some 0 in
  result.2 = paContinue
  /\ (forall e1, Encode encoder frame = (None, e1) -> silent)
  /\ (forall packet e1 d1,
        Encode encoder frame = (Some packet, e1) ->
        SetEncodedPacket decoder packet = (false, d1) ->
        silent)
  /\ (forall packet e1 d1 d2,
        Encode encoder frame = (Some packet, e1) ->
        SetEncodedPacket decoder packet = (true, d1) ->
        DecodeSamples d1 (Z.of_nat frameCount) = (None, d2) ->
        silent).
Proof.
  intros Hlen result out' frame silent.
  subst result out' frame silent. unfold Demo.audioCallback.
  rewrite frame_samples.
  destruct (Encode encoder (take frameCount input)) as [encoded e1]
    eqn:Henc.
  destruct encoded as [packet|]; cycle 1.
  { cbn. repeat split; try done; intros; simplify_eq; try congruence;
      apply std_fill_lookup; lia. }
  destruct (SetEncodedPacket decoder packet) as [accepted d1] eqn:Hset.
  destruct accepted; cycle 1.
  { cbn. repeat split; try done; intros; simplify_eq; try congruence;
      apply std_fill_lookup; lia. }
  destruct (DecodeSamples d1 (Z.of_nat frameCount)) as [decoded d2]
    eqn:Hsam.
  destruct decoded as [samples|].
  - cbn. repeat split; try done; intros; simplify_eq; congruence.
  - cbn. repeat split; try done; intros; simplify_eq; try congruence;
      apply std_fill_lookup; lia.
Qed.

Lemma C10_demo_callback_silent_on_failure_and_continues_witness :
  (3 <= length [9; 9; 9; 9])%nat
  /\ (Demo.audioCallback 3 [-1; 6; 7] [9; 9; 9; 9] tt ([] : list byte)).2
     = paContinue
  /\ (Demo.audioCallback 3 [-1; 6; 7] [9; 9; 9; 9] tt ([] : list byte))
       .1.1.1 !! 2%nat = Some 0
  /\ (Demo.audioCallback 3 [255; 6; 7] [9; 9; 9; 9] tt ([] : list byte))
       .1.1.1 !! 2%nat = Some 0
  /\ (Demo.audioCallback 3 [0; 6; 7] [9; 9; 9; 9] tt ([] : list byte))
       .1.1.1 !! 2%nat = Some 0.
Proof.
  assert (H : (3 <= length [9; 9; 9; 9])%nat) by (simpl; lia).
  split; [exact H|].
  destruct (C10_demo_callback_silent_on_failure_and_continues
              3 [-1; 6; 7] [9; 9; 9; 9] tt ([] : list byte) H)
    as (Hret & Hencode & _).
  destruct (C10_demo_callback_silent_on_failure_and_continues
              3 [255; 6; 7] [9; 9; 9; 9] tt ([] : list byte) H)
    as (_ & _ & Hrefused & _).
  destruct (C10_demo_callback_silent_on_failure_and_continues
              3 [0; 6; 7] [9; 9; 9; 9] tt ([] : list byte) H)
    as (_ & _ & _ & Hnoframe).
  split; [exact Hret|]. split; [|split].
  - exact (Hencode tt eq_refl 2%nat ltac:(lia)).
  - exact (Hrefused [xff] tt [] eq_refl eq_refl 2%nat ltac:(lia)).
  - exact (Hnoframe [x00] tt [x00] [x00] eq_refl eq_refl eq_refl
             2%nat ltac:(lia)).
Defined.

(** ** Start-up and shutdown of the three programs *)

(** Case analysis on an index into a trace that is known in full. *)
Ltac lookup_cases i H :=
  first
    [ discriminate H
    | destruct i as [|i]; cbn in H;
      [try discriminate H | lookup_cases i H] ].

Ltac solve_precedes :=
  let i := fresh "i" in
  let j := fresh "j" in
  let Hi := fresh "Hi" in
  let Hj := fresh "Hj" in
  intros i j Hi Hj; lookup_cases i Hi; lookup_cases j Hj; lia.

Ltac solve_occurs := apply list_elem_of_In; cbn; tauto.

Section main_facts.

Lemma not_in_short_trace (e : Event) (tr : list Event) :
  Forall (fun e' => e' <> e) tr -> e ∉ tr.
Proof.
  intros Hall Hin. rewrite Forall_forall in Hall. by apply (Hall e).
Qed.

(** A run of the receiver's [main] that gets as far as setting the flag
    is a run with one argument, a numeric port, a decoder, a device
    record and an open stream. *)
Lemma receiver_main_reaches_stop platform argc port decoder_created pa :
  set_g_finished
    ∈ (Receiver.main platform argc port decoder_created pa).1 ->
  argc = 2 /\ decoder_created = true /\ pa = mkPaAnswers true true
  /\ exists p, port = Some p.
Proof.
  unfold Receiver.main.
  destruct (Z.eqb_spec argc 2) as [->|Hne]; cbn;
    [|intros Hin; by apply elem_of_nil in Hin].
  destruct port as [p|]; cbn;
    [|intros Hin; by apply elem_of_nil in Hin].
  destruct decoder_created, pa as [[] []]; cbn;
    try (intros _; by eauto 6).
  all: intros Hin; exfalso; revert Hin; apply not_in_short_trace.
  all: repeat constructor; discriminate.
Qed.

Lemma receiver_trace platform p :
  (Receiver.main platform 2 (Some p) true (mkPaAnswers true true)).1
  = [LyraDecoder_Create; thread_start network_thread;
     thread_start decoder_thread; Pa_Initialize;
     Pa_GetDefaultOutputDevice; Pa_GetDeviceInfo; Pa_OpenStream;
     Pa_StartStream; cin_get; set_g_finished;
     Receiver.unblock_socket platform;
     thread_join network_thread; thread_join decoder_thread;
     Pa_StopStream; Pa_CloseStream; Pa_Terminate].
Proof. reflexivity. Qed.

Lemma sender_trace p :
  (Sender.main 3 (Some p) true (mkPaAnswers true true)).1
  = [LyraEncoder_Create; thread_start network_thread; Pa_Initialize;
     Pa_GetDefaultInputDevice; Pa_GetDeviceInfo; Pa_OpenStream;
     Pa_StartStream; cin_get; set_g_finished; Pa_StopStream;
     Pa_CloseStream; Pa_Terminate; thread_join network_thread].
Proof. reflexivity. Qed.

Lemma sender_main_reaches_stop argc port encoder_created pa :
  set_g_finished ∈ (Sender.main argc port encoder_created pa).1 ->
  argc = 3 /\ encoder_created = true /\ pa = mkPaAnswers true true
  /\ exists p, port = Some p.
Proof.
  unfold Sender.main.
  destruct (Z.eqb_spec argc 3) as [->|Hne]; cbn;
    [|intros Hin; by apply elem_of_nil in Hin].
  destruct port as [p|]; cbn;
    [|intros Hin; by apply elem_of_nil in Hin].
  destruct encoder_created, pa as [[] []]; cbn;
    try (intros _; by eauto 6).
  all: intros Hin; exfalso; revert Hin; apply not_in_short_trace.
  all: repeat constructor; discriminate.
Qed.

Lemma receiver_stop_sequence platform p :
  stop_sequence_in_order (Receiver.unblock_socket platform)
    (Receiver.main platform 2 (Some p) true (mkPaAnswers true true)).1.
Proof.
  rewrite receiver_trace.
  destruct platform; cbn [Receiver.unblock_socket].
  all: unfold stop_sequence_in_order.
  all: split; [solve_occurs|]; split; [solve_occurs|].
  all: split; [solve_occurs|]; split; [solve_occurs|].
  all: split; [solve_precedes|].
  all: intros t _; destruct t.
  all: split; [solve_occurs|]; split; [solve_precedes|].
  all: split; solve_precedes.
Qed.
End main_facts.

(** C2, as amended.  Receiver: every run of [main] that reaches the stop
    sequence sets the shutdown flag, then shuts down (on Windows: closes)
    the socket, then joins the network thread and the decoder thread,
    and only then stops and closes the audio stream.  Sender: every run
    of [main] that reaches the stop sequence sets the shutdown flag, then
    stops and closes the audio stream, and joins its network thread after
    that; its [main] makes no call on the socket. *)
Theorem C2_stop_sequence_order :
  (forall platform argc port decoder_created pa,
     let tr := (Receiver.main platform argc port decoder_created pa).1 in
     set_g_finished ∈ tr ->
     stop_sequence_in_order (Receiver.unblock_socket platform) tr
     /\ thread_start network_thread ∈ tr
     /\ thread_start decoder_thread ∈ tr
     /\ precedes Pa_StopStream Pa_CloseStream tr)
  /\ (forall argc port encoder_created pa,
        let tr := (Sender.main argc port encoder_created pa).1 in
        set_g_finished ∈ tr ->
        Pa_StopStream ∈ tr
        /\ Pa_CloseStream ∈ tr
        /\ thread_join network_thread ∈ tr
        /\ precedes set_g_finished Pa_StopStream tr
        /\ precedes Pa_StopStream Pa_CloseStream tr
        /\ precedes Pa_CloseStream (thread_join network_thread) tr
        /\ (socket_shutdown ∉ tr)
        /\ (socket_closesocket ∉ tr)).
Proof.
  split.
  - intros platform argc port decoder_created pa tr Hstop. subst tr.
    apply receiver_main_reaches_stop in Hstop as (-> & -> & -> & p & ->).
    split; [apply receiver_stop_sequence|].
    rewrite receiver_trace.
    destruct platform; cbn [Receiver.unblock_socket].
    all: split; [solve_occurs|]; split; [solve_occurs|]; solve_precedes.
  - intros argc port encoder_created pa tr Hstop. subst tr.
    apply sender_main_reaches_stop in Hstop as (-> & -> & -> & p & ->).
    rewrite sender_trace.
    split; [solve_occurs|]. split; [solve_occurs|]. split; [solve_occurs|].
    split; [solve_precedes|]. split; [solve_precedes|].
    split; [solve_precedes|].
    split; intros Hin; apply list_elem_of_In in Hin; cbn in Hin;
      intuition discriminate.
Qed.

Lemma C2_stop_sequence_order_witness :
  set_g_finished ∈ (Receiver.main Posix 2 (Some 5000) true (mkPaAnswers true true)).1
  /\ set_g_finished ∈ (Sender.main 3 (Some 5000) true (mkPaAnswers true true)).1
  /\ stop_sequence_in_order socket_shutdown
       (Receiver.main Posix 2 (Some 5000) true (mkPaAnswers true true)).1
  /\ precedes Pa_CloseStream (thread_join network_thread)
       (Sender.main 3 (Some 5000) true (mkPaAnswers true true)).1.
Proof.
  assert (Hr : set_g_finished ∈ (Receiver.main Posix 2 (Some 5000) true (mkPaAnswers true true)).1)
    by (apply list_elem_of_In; cbn; tauto).
  assert (Hs : set_g_finished ∈ (Sender.main 3 (Some 5000) true (mkPaAnswers true true)).1)
    by (apply list_elem_of_In; cbn; tauto).
  split; [exact Hr|]. split; [exact Hs|]. split.
  - exact (proj1 (proj1 C2_stop_sequence_order Posix 2 (Some 5000) true
                  (mkPaAnswers true true) Hr)).
  - destruct (proj2 C2_stop_sequence_order 3 (Some 5000) true
              (mkPaAnswers true true) Hs)
      as (_ & _ & _ & _ & _ & Hjoin & _).
    exact Hjoin.
Defined.

(** C2 as stated fails for the sender: its [main] stops the audio stream
    before it joins the network thread, and never closes or shuts down
    the socket. *)
Lemma C2_counterexample_sender_stops_stream_before_join :
  set_g_finished ∈ (Sender.main 3 (Some 5000) true (mkPaAnswers true true)).1
  /\ thread_start network_thread ∈ (Sender.main 3 (Some 5000) true (mkPaAnswers true true)).1
  /\ ~ precedes (thread_join network_thread) Pa_StopStream
         (Sender.main 3 (Some 5000) true (mkPaAnswers true true)).1
  /\ ~ stop_sequence_in_order socket_shutdown
         (Sender.main 3 (Some 5000) true (mkPaAnswers true true)).1
  /\ ~ stop_sequence_in_order socket_closesocket
         (Sender.main 3 (Some 5000) true (mkPaAnswers true true)).1.
Proof.
  assert (Hnot : ~ precedes (thread_join network_thread) Pa_StopStream
                     (Sender.main 3 (Some 5000) true (mkPaAnswers true true)).1).
  { intros Hprec.
    specialize (Hprec 12%nat 9%nat eq_refl eq_refl). lia. }
  assert (Hstart : thread_start network_thread
                     ∈ (Sender.main 3 (Some 5000) true (mkPaAnswers true true)).1)
    by (apply list_elem_of_In; cbn; tauto).
  split; [apply list_elem_of_In; cbn; tauto|].
  split; [exact Hstart|]. split; [exact Hnot|].
  split; intros (_ & _ & _ & _ & _ & Hjoins);
    destruct (Hjoins network_thread Hstart) as (_ & _ & Hprec & _);
    exact (Hnot Hprec).
Qed.

(** C3, as amended.  Each program exits with code 1, before any thread or
    audio stream is started, when a codec object cannot be created.  The
    loopback demo also exits with code 1, without reaching its wait for
    the user, when PortAudio cannot be initialised, a default device is
    missing, or the stream cannot be opened or started, and with code 0
    when every step succeeds.  The receiver and the sender exit with code
    0 when the codec object exists, PortAudio finds the default device
    and opens the stream.  In such a run a failure to create (receiver:
    or bind) the socket ends the network thread before its loop and
    changes nothing else: [main] starts the audio stream (receiver: and
    the decoder thread) all the same and exits with code 0. *)
Theorem C3_exit_codes :
  (forall platform p pa,
     Receiver.main platform 2 (Some p) false pa
     = ([LyraDecoder_Create], Exit 1))
  /\ (forall platform p pa,
        device_info_found pa = true ->
        stream_opened pa = true ->
        (Receiver.main platform 2 (Some p) true pa).2 = Exit 0)
  /\ (forall p pa,
        Sender.main 3 (Some p) false pa = ([LyraEncoder_Create], Exit 1))
  /\ (forall p pa,
        device_info_found pa = true ->
        stream_opened pa = true ->
        (Sender.main 3 (Some p) true pa).2 = Exit 0)
  /\ (forall env,
        Demo.encoder_created env = false \/ Demo.decoder_created env = false ->
        Demo.main env = ([LyraEncoder_Create; LyraDecoder_Create], Exit 1))
  /\ (forall env,
        Demo.encoder_created env = true ->
        Demo.decoder_created env = true ->
        Demo.initialize_result env <> paNoError
        \/ Demo.default_input_device env = paNoDevice
        \/ Demo.default_output_device env = paNoDevice
        \/ Demo.open_stream_result env <> paNoError
        \/ Demo.start_stream_result env <> paNoError ->
        (Demo.main env).2 = Exit 1 /\ cin_get ∉ (Demo.main env).1)
  /\ (forall env,
        Demo.encoder_created env = true ->
        Demo.decoder_created env = true ->
        Demo.initialize_result env = paNoError ->
        Demo.default_input_device env <> paNoDevice ->
        Demo.default_output_device env <> paNoDevice ->
        Demo.open_stream_result env = paNoError ->
        Demo.start_stream_result env = paNoError ->
        Demo.stop_stream_result env = paNoError ->
        Demo.close_stream_result env = paNoError ->
        (Demo.main env).2 = Exit 0)
  /\ (forall platform p pa wsa_startup socket_fd bind_result,
        device_info_found pa = true ->
        stream_opened pa = true ->
        socket_fd < 0 \/ bind_result < 0 ->
        Receiver.network_setup
          (Receiver.process platform 2 (Some p) true pa wsa_startup
             socket_fd bind_result) = Some Receiver.LoopExited
        /\ thread_start decoder_thread
             ∈ Receiver.main_trace
                 (Receiver.process platform 2 (Some p) true pa wsa_startup
                    socket_fd bind_result)
        /\ Pa_StartStream
             ∈ Receiver.main_trace
                 (Receiver.process platform 2 (Some p) true pa wsa_startup
                    socket_fd bind_result)
        /\ Receiver.outcome
             (Receiver.process platform 2 (Some p) true pa wsa_startup
                socket_fd bind_result) = Exit 0)
  /\ (forall platform p pa wsa_startup socket_fd,
        device_info_found pa = true ->
        stream_opened pa = true ->
        socket_fd < 0 ->
        Sender.network_setup
          (Sender.process platform 3 (Some p) true pa wsa_startup socket_fd)
        = Some false
        /\ Pa_StartStream
             ∈ Sender.main_trace
                 (Sender.process platform 3 (Some p) true pa wsa_startup
                    socket_fd)
        /\ Sender.outcome
             (Sender.process platform 3 (Some p) true pa wsa_startup
                socket_fd) = Exit 0).
Proof.
  split; [done|].
  split; [by intros platform p [[] []]|].
  split; [done|].
  split; [by intros p [[] []]|].
  split; [|split; [|split; [|split]]].
  - intros [[] [] ? ? ? ? ? ? ?]; cbn; intros [?|?]; done.
  - intros [enc dec init din dout op st sp cl]; cbn.
    intros -> -> Hfail. unfold Demo.main, Demo.PA_CHECK, paNoError,
      paNoDevice in *. cbn.
    destruct (Z.eqb_spec init 0); cbn.
    2:{ split; [done|]. intros Hin. apply list_elem_of_In in Hin.
        cbn in Hin. intuition discriminate. }
    destruct (Z.eqb_spec din (-1)); cbn.
    { split; [done|]. intros Hin. apply list_elem_of_In in Hin.
      cbn in Hin. intuition discriminate. }
    destruct (Z.eqb_spec dout (-1)); cbn.
    { split; [done|]. intros Hin. apply list_elem_of_In in Hin.
      cbn in Hin. intuition discriminate. }
    destruct (Z.eqb_spec op 0); cbn.
    2:{ split; [done|]. intros Hin. apply list_elem_of_In in Hin.
        cbn in Hin. intuition discriminate. }
    destruct (Z.eqb_spec st 0); cbn.
    2:{ split; [done|]. intros Hin. apply list_elem_of_In in Hin.
        cbn in Hin. intuition discriminate. }
    exfalso. intuition congruence.
  - intros [enc dec init din dout op st sp cl]; cbn.
    intros -> -> -> Hin Hout -> -> -> ->.
    unfold Demo.main, Demo.PA_CHECK, paNoError, paNoDevice in *. cbn.
    destruct (Z.eqb_spec din (-1)); [done|].
    destruct (Z.eqb_spec dout (-1)); [done|].
    reflexivity.
  - intros platform p [[] []] wsa fd bind_result Hdev Hopen Hfail;
      try discriminate.
    unfold Receiver.process. cbn.
    split; [|split; [solve_occurs|split; [solve_occurs|done]]].
    f_equal. unfold Receiver.network_thread_setup.
    destruct (Receiver.WSAStartup_failed platform wsa); [done|]. cbn.
    destruct (Z.ltb_spec fd 0); [done|].
    destruct (Z.ltb_spec bind_result 0); [done|]. lia.
  - intros platform p [[] []] wsa fd Hdev Hopen Hfail; try discriminate.
    unfold Sender.process. cbn.
    split; [|split; [solve_occurs|done]].
    f_equal. unfold Sender.network_thread_setup.
    destruct (Receiver.WSAStartup_failed platform wsa); [done|].
    by destruct (Z.ltb_spec fd 0); [|lia].
Qed.

Lemma C3_exit_codes_witness :
  (Demo.encoder_created (Demo.mkEnv true false 0 0 1 0 0 0 0) = false
   \/ Demo.decoder_created (Demo.mkEnv true false 0 0 1 0 0 0 0) = false)
  /\ Demo.main (Demo.mkEnv true false 0 0 1 0 0 0 0)
     = ([LyraEncoder_Create; LyraDecoder_Create], Exit 1)
  /\ (Demo.main (Demo.mkEnv true true 0 0 1 (-9986) 0 0 0)).2 = Exit 1
  /\ (Demo.main (Demo.mkEnv true true 0 0 1 0 0 0 0)).2 = Exit 0
  /\ (Receiver.main Posix 2 (Some 5000) true (mkPaAnswers true true)).2
     = Exit 0
  /\ (Sender.main 3 (Some 5000) true (mkPaAnswers true true)).2 = Exit 0
  /\ Receiver.outcome
       (Receiver.process Posix 2 (Some 5000) true (mkPaAnswers true true)
          0 3 (-1))
     = Exit 0
  /\ Sender.outcome
       (Sender.process Posix 3 (Some 5000) true (mkPaAnswers true true)
          0 (-1))
     = Exit 0.
Proof.
  destruct C3_exit_codes
    as (_ & Hrun & _ & Hsrun & Hcodec & Haudio & Hclean & Hrecv & Hsend).
  assert (Hfail :
    Demo.encoder_created (Demo.mkEnv true false 0 0 1 0 0 0 0) = false
    \/ Demo.decoder_created (Demo.mkEnv true false 0 0 1 0 0 0 0) = false)
    by (right; reflexivity).
  split; [exact Hfail|].
  split; [exact (Hcodec _ Hfail)|].
  split.
  { refine (proj1 (Haudio (Demo.mkEnv true true 0 0 1 (-9986) 0 0 0)
                     eq_refl eq_refl _)).
    right. right. right. left. discriminate. }
  split.
  { refine (Hclean (Demo.mkEnv true true 0 0 1 0 0 0 0)
              eq_refl eq_refl eq_refl _ _ eq_refl eq_refl eq_refl eq_refl);
      discriminate. }
  split; [exact (Hrun Posix 5000 (mkPaAnswers true true) eq_refl eq_refl)|].
  split; [exact (Hsrun 5000 (mkPaAnswers true true) eq_refl eq_refl)|].
  split.
  - refine (proj2 (proj2 (proj2
      (Hrecv Posix 5000 (mkPaAnswers true true) 0 3 (-1)
         eq_refl eq_refl _)))).
    right. reflexivity.
  - refine (proj2 (proj2
      (Hsend Posix 5000 (mkPaAnswers true true) 0 (-1)
         eq_refl eq_refl _))).
    reflexivity.
Defined.

(** C3 as stated fails in the receiver: when [socket] fails, the network
    thread returns before its loop, while [main] starts the decoder
    thread and the audio stream all the same and exits with code 0. *)
Lemma C3_counterexample_socket_failure_exits_zero :
  Receiver.network_setup
    (Receiver.process Posix 2 (Some 5000) true (mkPaAnswers true true)
       0 (-1) 0)
  = Some Receiver.LoopExited
  /\ Receiver.outcome
       (Receiver.process Posix 2 (Some 5000) true (mkPaAnswers true true)
          0 (-1) 0)
     = Exit 0
  /\ Receiver.outcome
       (Receiver.process Posix 2 (Some 5000) true (mkPaAnswers true true)
          0 (-1) 0)
     <> Exit 1
  /\ thread_start decoder_thread
       ∈ Receiver.main_trace
           (Receiver.process Posix 2 (Some 5000) true
              (mkPaAnswers true true) 0 (-1) 0)
  /\ Pa_StartStream
       ∈ Receiver.main_trace
           (Receiver.process Posix 2 (Some 5000) true
              (mkPaAnswers true true) 0 (-1) 0).
Proof.
  repeat split; try done; apply list_elem_of_In; cbn; tauto.
Qed.

(** * Further properties *)

(** ** Playback across callbacks *)

Section playback_frames.
Implicit Types (out pcm : list Z) (n m : nat).

(** The frame a callback delivers: the head of the queue, followed by
    silence when the queue is too short. *)
Lemma playback_frame n out pcm :
  (n <= length out)%nat ->
  take n (Receiver.audioCallback_loop n out pcm).1
  = take n (pcm ++ replicate n 0).
Proof.
  intros Hlen. apply list_eq. intros i.
  destruct (decide (i < n)%nat) as [Hi|Hi].
  - rewrite !lookup_take_lt by done.
    rewrite audioCallback_loop_written by lia.
    destruct (decide (i < length pcm)%nat) as [Hp|Hp].
    + rewrite lookup_app_l by done.
      destruct (lookup_lt_is_Some_2 pcm i Hp) as [x Hx]. by rewrite Hx.
    + rewrite lookup_app_r by lia.
      rewrite (lookup_ge_None_2 pcm i) by lia.
      by rewrite lookup_replicate_2 by lia.
  - by rewrite !lookup_take_ge by lia.
Qed.

Lemma padded_take_add n m pcm :
  take n (pcm ++ replicate n 0) ++ take m (drop n pcm ++ replicate m 0)
  = take (n + m) (pcm ++ replicate (n + m) 0).
Proof.
  rewrite !take_app, !take_replicate, length_drop.
  destruct (decide (n <= length pcm)%nat) as [Hle|Hgt].
  - replace (n - length pcm)%nat with 0%nat by lia.
    rewrite Nat.min_0_l. simpl. rewrite app_nil_r, app_assoc.
    rewrite take_take_drop. f_equal. f_equal. lia.
  - rewrite (take_ge pcm n), (take_ge pcm (n + m)) by lia.
    rewrite (drop_ge pcm n) by lia. rewrite take_nil. simpl.
    rewrite <- app_assoc. f_equal.
    rewrite <- replicate_add. f_equal. lia.
Qed.
End playback_frames.

(** X1.  The playback callback writes the first [frameCount] positions
    of the output buffer and nothing else: the buffer keeps its length,
    every position from [frameCount] on keeps its content, and the value
    returned to PortAudio is [paContinue] whatever the queue holds. *)
Theorem X1_playback_writes_only_the_frame
    (frameCount : nat) (out : list Z) (g : Receiver.Globals) :
  length (Receiver.audioCallback frameCount out g).1.1 = length out
  /\ (forall i, (frameCount <= i)%nat ->
        (Receiver.audioCallback frameCount out g).1.1 !! i = out !! i)
  /\ (Receiver.audioCallback frameCount out g).2 = paContinue.
Proof.
  rewrite audioCallback_out, audioCallback_result.
  split; [apply audioCallback_loop_length|]. split; [|done].
  intros i Hi. by apply audioCallback_loop_untouched.
Qed.

(** X2.  Successive playback callbacks, with nothing else running, play
    the sample queue in order and without gap or repetition: the frames
    they deliver, joined, are the first samples of the queue followed by
    silence once it has run out, each frame has the length asked for,
    and the queue is left with the samples not yet played. *)
Theorem X2_consecutive_callbacks_play_queue_in_order
    {D : Type} `{!LyraDecoder D} (callbacks : list (nat * list Z)) :
  forall s : Receiver.System D,
  Forall (fun c : nat * list Z => (c.1 <= length c.2)%nat) callbacks ->
  let s' :=
    Receiver.run s
      ((fun c : nat * list Z => Receiver.Callback c.1 c.2) <$> callbacks) in
  let total := sum_list (callbacks.*1) in
  let pcm := Receiver.g_pcm_buffer (Receiver.globals s) in
  exists frames,
    Receiver.played s' = Receiver.played s ++ frames
    /\ length <$> frames = callbacks.*1
    /\ concat frames = take total (pcm ++ replicate total 0)
    /\ Receiver.g_pcm_buffer (Receiver.globals s') = drop total pcm.
Proof.
  induction callbacks as [|[n out] callbacks IH]; intros s Hfit.
  - exists []. simpl. by rewrite app_nil_r, drop_0.
  - apply Forall_cons in Hfit as [Hn Hfit]. simpl in Hn.
    cbn [fmap list_fmap Receiver.run foldl fst snd sum_list].
    set (s1 := Receiver.step s (Receiver.Callback n out)).
    assert (Receiver.played s1
            = Receiver.played s
                ++ [take n (Receiver.g_pcm_buffer (Receiver.globals s)
                            ++ replicate n 0)]
            /\ Receiver.g_pcm_buffer (Receiver.globals s1)
               = drop n (Receiver.g_pcm_buffer (Receiver.globals s)))
      as [Hplayed Hpcm].
    { subst s1. simpl.
      pose proof (audioCallback_out n out (Receiver.globals s)) as Ho.
      pose proof (audioCallback_globals n out (Receiver.globals s)) as Hg.
      destruct (Receiver.audioCallback n out (Receiver.globals s))
        as [[out' g'] ret]. simpl in *. subst out' g'.
      by rewrite playback_frame. }
    destruct (IH s1 Hfit) as (frames & Hp & Hlen & Hcat & Hq).
    exists (take n (Receiver.g_pcm_buffer (Receiver.globals s)
                    ++ replicate n 0) :: frames).
    unfold Receiver.run in *. split; [|split; [|split]].
    + rewrite Hp, Hplayed. by rewrite <- app_assoc.
    + cbn [fmap list_fmap]. f_equal; [|exact Hlen].
      rewrite length_take, length_app, length_replicate. lia.
    + cbn [concat]. rewrite Hcat, Hpcm. apply padded_take_add.
    + rewrite Hq, Hpcm. by rewrite drop_drop.
Qed.

Lemma X2_consecutive_callbacks_play_queue_in_order_witness :
  Forall (fun c : nat * list Z => (c.1 <= length c.2)%nat)
    [(2%nat, [7; 7]); (3%nat, [8; 8; 8])]
  /\ exists frames,
       Receiver.played
         (Receiver.run
            (TestCodec.holding_samples [11; 12; 13])
            [Receiver.Callback 2 [7; 7]; Receiver.Callback 3 [8; 8; 8]])
       = [] ++ frames
       /\ concat frames = take 5 ([11; 12; 13] ++ replicate 5 0).
Proof.
  assert (Hfit : Forall (fun c : nat * list Z => (c.1 <= length c.2)%nat)
                   [(2%nat, [7; 7]); (3%nat, [8; 8; 8])]).
  { repeat constructor. }
  split; [exact Hfit|].
  destruct (X2_consecutive_callbacks_play_queue_in_order
              [(2%nat, [7; 7]); (3%nat, [8; 8; 8])]
              (TestCodec.holding_samples [11; 12; 13]) Hfit)
    as (frames & Hp & _ & Hcat & _).
  exists frames. split; [exact Hp|exact Hcat].
Defined.

(** ** The receiver's threads together *)

Section receiver_invariants.
Context {D : Type} `{!LyraDecoder D}.
Implicit Types (s : Receiver.System D) (g : Receiver.Globals).

(** Whatever holds of every packet the network thread can enqueue holds
    of every packet in the jitter buffer of a running receiver. *)
Lemma step_packets_Forall (P : list byte -> Prop) s a :
  (forall payload, payload <> [] -> P (take 256 payload)) ->
  Forall P (Receiver.g_jitter_buffer (Receiver.globals s)) ->
  Forall P
    (Receiver.g_jitter_buffer (Receiver.globals (Receiver.step s a))).
Proof.
  intros HP Hinv.
  destruct a as [r| |frameCount out|]; simpl.
  - destruct (Receiver.network_loop s); [|done].
    destruct (Receiver.g_finished (Receiver.globals s)); [done|]. simpl.
    destruct (Z.lt_ge_cases 0 (Receiver.recvfrom (replicate 256 x00) r).1)
      as [Hpos|Hle].
    + destruct (recvfrom_positive r Hpos) as (payload & -> & Hne).
      rewrite network_thread_body_datagram by done. simpl.
      apply Forall_app. split; [done|].
      apply Forall_singleton. by apply HP.
    + by rewrite network_thread_body_nothing.
  - destruct (Receiver.decoder_loop s); [|done].
    destruct (Receiver.g_finished (Receiver.globals s)); [done|].
    pose proof (decoder_thread_body_jitter (Receiver.decoder s)
                  (Receiver.globals s)) as Hj.
    destruct (Receiver.decoder_thread_body _ _) as [d g]. simpl in *.
    rewrite Hj.
    destruct (Receiver.g_jitter_buffer (Receiver.globals s)); [done|].
    by apply Forall_cons in Hinv as [_ ?].
  - pose proof (audioCallback_globals frameCount out (Receiver.globals s))
      as Hg.
    destruct (Receiver.audioCallback _ _ _) as [[out' g] ret].
    simpl in *. by subst g.
  - done.
Qed.

Lemma run_packets_Forall (P : list byte -> Prop) schedule : forall s,
  (forall payload, payload <> [] -> P (take 256 payload)) ->
  Forall P (Receiver.g_jitter_buffer (Receiver.globals s)) ->
  Forall P
    (Receiver.g_jitter_buffer
       (Receiver.globals (Receiver.run s schedule))).
Proof.
  induction schedule as [|a schedule IH]; intros s HP Hinv; [done|].
  simpl. apply IH; [done|]. by apply step_packets_Forall.
Qed.

Lemma start_jitter_empty platform wsa_startup socket_fd bind_result
    (d : D) :
  Receiver.g_jitter_buffer
    (Receiver.globals
       (Receiver.start platform wsa_startup socket_fd bind_result d)) = [].
Proof.
  unfold Receiver.start, Receiver.network_thread_setup.
  repeat case_match; by simplify_eq.
Qed.

(** The flag, once set, stays set. *)
Lemma step_finished s a :
  Receiver.g_finished (Receiver.globals s) = true ->
  Receiver.g_finished (Receiver.globals (Receiver.step s a)) = true.
Proof.
  intros Hfin. destruct a as [r| |frameCount out|]; simpl.
  - destruct (Receiver.network_loop s); [|done]. by rewrite Hfin.
  - destruct (Receiver.decoder_loop s); [|done]. by rewrite Hfin.
  - pose proof (audioCallback_globals frameCount out (Receiver.globals s))
      as Hg.
    destruct (Receiver.audioCallback _ _ _) as [[out' g] ret].
    simpl in *. by subst g.
  - done.
Qed.

Lemma run_finished schedule : forall s,
  Receiver.g_finished (Receiver.globals s) = true ->
  Receiver.g_finished (Receiver.globals (Receiver.run s schedule)) = true.
Proof.
  induction schedule as [|a schedule IH]; intros s Hfin; [done|].
  simpl. apply IH. by apply step_finished.
Qed.

(** A worker that is out of its loop after a step was out of it before,
    or the flag is set. *)
Lemma step_loop_exit s a :
  (Receiver.network_loop (Receiver.step s a) = Receiver.LoopExited ->
   Receiver.network_loop s = Receiver.LoopExited
   \/ Receiver.g_finished (Receiver.globals (Receiver.step s a)) = true)
  /\ (Receiver.decoder_loop (Receiver.step s a) = Receiver.LoopExited ->
      Receiver.decoder_loop s = Receiver.LoopExited
      \/ Receiver.g_finished (Receiver.globals (Receiver.step s a)) = true).
Proof.
  destruct a as [r| |frameCount out|]; simpl.
  - destruct (Receiver.network_loop s) eqn:Hn; [|by split; left].
    destruct (Receiver.g_finished (Receiver.globals s)) eqn:Hf; simpl.
    + by split; right.
    + split; [done|]. by left.
  - destruct (Receiver.decoder_loop s) eqn:Hd; [|by split; left].
    destruct (Receiver.g_finished (Receiver.globals s)) eqn:Hf; simpl.
    + by split; right.
    + destruct (Receiver.decoder_thread_body _ _) as [d g]. simpl.
      split; [by left|done].
  - destruct (Receiver.audioCallback _ _ _) as [[out' g] ret]. simpl.
    by split; left.
  - by split; left.
Qed.

Lemma step_loop_stays_exited s a :
  (Receiver.network_loop s = Receiver.LoopExited ->
   Receiver.network_loop (Receiver.step s a) = Receiver.LoopExited)
  /\ (Receiver.decoder_loop s = Receiver.LoopExited ->
      Receiver.decoder_loop (Receiver.step s a) = Receiver.LoopExited).
Proof.
  destruct a as [r| |frameCount out|]; simpl.
  - destruct (Receiver.network_loop s) eqn:Hn; [|done].
    split; [done|].
    by destruct (Receiver.g_finished (Receiver.globals s)).
  - destruct (Receiver.decoder_loop s) eqn:Hd; [|done].
    split; [|done].
    destruct (Receiver.g_finished (Receiver.globals s)); [done|].
    by destruct (Receiver.decoder_thread_body _ _).
  - by destruct (Receiver.audioCallback _ _ _) as [[out' g] ret].
  - done.
Qed.
End receiver_invariants.

(** X3.  In a running receiver every packet in the jitter buffer has at
    least 1 and at most 256 bytes: the network thread enqueues only what
    [recvfrom] delivered into its 256-byte buffer with a positive
    count. *)
Theorem X3_jitter_packets_have_1_to_256_bytes
    {D : Type} `{!LyraDecoder D} (s : Receiver.System D) :
  Receiver.reachable s ->
  Forall (fun packet : list byte => (1 <= length packet <= 256)%nat)
    (Receiver.g_jitter_buffer (Receiver.globals s)).
Proof.
  intros (platform & wsa & fd & bind_result & d & schedule & ->).
  apply run_packets_Forall.
  - intros payload Hne. rewrite length_take.
    assert (0 < length payload)%nat
      by (destruct payload; [done|cbn [length]; lia]).
    lia.
  - rewrite start_jitter_empty. constructor.
Qed.

Lemma X3_jitter_packets_have_1_to_256_bytes_witness :
  Receiver.reachable
    (TestCodec.after_datagram (replicate 300 x07))
  /\ Forall (fun packet : list byte => (1 <= length packet <= 256)%nat)
       (Receiver.g_jitter_buffer
          (Receiver.globals
             (TestCodec.after_datagram (replicate 300 x07)))).
Proof.
  assert (Hr : Receiver.reachable
                 (TestCodec.after_datagram (replicate 300 x07))).
  { exists Posix, 0, 3, 0, [],
      [Receiver.NetworkIter (Receiver.Datagram (replicate 300 x07))].
    reflexivity. }
  split; [exact Hr|].
  exact (X3_jitter_packets_have_1_to_256_bytes _ Hr).
Defined.

(** X5.  A worker thread leaves its loop only on the shutdown flag, and
    never enters it again: over any schedule, a thread that was in its
    loop and is out of it at the end finds the flag set, whatever
    [recvfrom] and the codec answered in between; a thread that was out
    of its loop stays out. *)
Theorem X5_workers_leave_their_loop_only_on_shutdown
    {D : Type} `{!LyraDecoder D} (schedule : list Receiver.Action) :
  forall s : Receiver.System D,
  let s' := Receiver.run s schedule in
  (Receiver.network_loop s' = Receiver.LoopExited ->
   Receiver.network_loop s = Receiver.LoopExited
   \/ Receiver.g_finished (Receiver.globals s') = true)
  /\ (Receiver.decoder_loop s' = Receiver.LoopExited ->
      Receiver.decoder_loop s = Receiver.LoopExited
      \/ Receiver.g_finished (Receiver.globals s') = true)
  /\ (Receiver.network_loop s = Receiver.LoopExited ->
      Receiver.network_loop s' = Receiver.LoopExited)
  /\ (Receiver.decoder_loop s = Receiver.LoopExited ->
      Receiver.decoder_loop s' = Receiver.LoopExited).
Proof.
  induction schedule as [|a schedule IH]; intros s.
  - simpl. repeat split; auto.
  - cbn [Receiver.run foldl].
    destruct (IH (Receiver.step s a)) as (Hn & Hd & Hn' & Hd').
    destruct (step_loop_exit s a) as [Hsn Hsd].
    destruct (step_loop_stays_exited s a) as [Hkn Hkd].
    unfold Receiver.run in *.
    split; [|split; [|split]].
    + intros Hex. destruct (Hn Hex) as [H1|H1]; [|by right].
      destruct (Hsn H1) as [H2|H2]; [by left|right].
      by apply (run_finished schedule).
    + intros Hex. destruct (Hd Hex) as [H1|H1]; [|by right].
      destruct (Hsd H1) as [H2|H2]; [by left|right].
      by apply (run_finished schedule).
    + intros Hex. apply Hn', Hkn, Hex.
    + intros Hex. apply Hd', Hkd, Hex.
Qed.

(** X6.  A pass of the decode worker that finds the jitter buffer empty,
    or finds a packet without a byte at its head, hands nothing to the
    codec: the decoder object and the sample queue are as before, and
    the packet without a byte is gone from the buffer. *)
Theorem X6_decoder_pass_without_packet_leaves_codec_alone
    {D : Type} `{!LyraDecoder D} (d : D) (g : Receiver.Globals) :
  head (Receiver.g_jitter_buffer g) = None
  \/ head (Receiver.g_jitter_buffer g) = Some [] ->
  Receiver.decoder_thread_body d g
  = (d, Receiver.set_jitter (tail (Receiver.g_jitter_buffer g)) g).
Proof.
  destruct (Receiver.g_jitter_buffer g) as [|packet rest] eqn:Hq; simpl.
  - intros _. by apply decoder_thread_body_idle.
  - intros [Hnone|Hsome]; [done|]. inversion Hsome; subst.
    by apply decoder_thread_body_empty_packet.
Qed.

Lemma X6_decoder_pass_without_packet_leaves_codec_alone_witness :
  head (Receiver.g_jitter_buffer
          (Receiver.set_jitter [[]; [x05]] Receiver.initial)) = Some []
  /\ Receiver.decoder_thread_body ([x09] : list byte)
       (Receiver.set_jitter [[]; [x05]] Receiver.initial)
     = ([x09],
        Receiver.set_jitter
          (tail (Receiver.g_jitter_buffer
                   (Receiver.set_jitter [[]; [x05]] Receiver.initial)))
          (Receiver.set_jitter [[]; [x05]] Receiver.initial)).
Proof.
  split; [reflexivity|].
  apply (X6_decoder_pass_without_packet_leaves_codec_alone
           ([x09] : list byte)
           (Receiver.set_jitter [[]; [x05]] Receiver.initial)).
  right. reflexivity.
Defined.

(** X7.  From datagram to loudspeaker.  In a running receiver with empty
    queues, a datagram of 1 to 256 bytes that the codec accepts and
    decodes is played by the next callback asking for as many samples as
    the frame has: the frame handed to the sound device is the decoded
    frame, and both queues are empty again. *)
Theorem X7_datagram_is_decoded_and_played
    {D : Type} `{!LyraDecoder D} (s : Receiver.System D)
    (payload : list byte) (d1 d2 : D) (samples out : list Z) :
  Receiver.network_loop s = Receiver.InLoop ->
  Receiver.decoder_loop s = Receiver.InLoop ->
  Receiver.g_finished (Receiver.globals s) = false ->
  Receiver.g_jitter_buffer (Receiver.globals s) = [] ->
  Receiver.g_pcm_buffer (Receiver.globals s) = [] ->
  payload <> [] ->
  (length payload <= 256)%nat ->
  SetEncodedPacket (Receiver.decoder s) payload = (true, d1) ->
  DecodeSamples d1 kFramesPerBuffer = (Some samples, d2) ->
  (length samples <= length out)%nat ->
  let s' :=
    Receiver.run s
      [Receiver.NetworkIter (Receiver.Datagram payload);
       Receiver.DecoderIter;
       Receiver.Callback (length samples) out] in
  Receiver.played s' = Receiver.played s ++ [samples]
  /\ Receiver.g_jitter_buffer (Receiver.globals s') = []
  /\ Receiver.g_pcm_buffer (Receiver.globals s') = []
  /\ Receiver.decoder s' = d2.
Proof.
  intros Hn Hd Hf Hj Hp Hne Hlen Hset Hsam Hout.
  cbn [Receiver.run foldl].
  set (s1 := Receiver.step s _).
  assert (Receiver.globals s1
          = Receiver.set_jitter [payload] (Receiver.globals s)
          /\ Receiver.decoder s1 = Receiver.decoder s
          /\ Receiver.decoder_loop s1 = Receiver.InLoop
          /\ Receiver.played s1 = Receiver.played s)
    as (Hg1 & Hd1 & Hl1 & Hp1).
  { subst s1. simpl. rewrite Hn, Hf. simpl.
    rewrite network_thread_body_datagram by done.
    by rewrite Hj, take_ge by done. }
  set (s2 := Receiver.step s1 _).
  assert (Receiver.globals s2
          = Receiver.set_pcm samples
              (Receiver.set_jitter [] (Receiver.globals s))
          /\ Receiver.decoder s2 = d2
          /\ Receiver.played s2 = Receiver.played s)
    as (Hg2 & Hd2 & Hp2).
  { subst s2.
    rewrite (step_decoder_packet s1 payload [])
      by (by rewrite ?Hg1; simpl).
    rewrite (decoder_thread_body_packet _ _ payload [])
      by (by rewrite ?Hg1; simpl).
    rewrite Hd1, Hset, Hsam, Hg1. simpl. by rewrite Hp. }
  simpl.
  pose proof (audioCallback_out (length samples) out (Receiver.globals s2))
    as Ho.
  pose proof (audioCallback_globals (length samples) out
                (Receiver.globals s2)) as Hg.
  destruct (Receiver.audioCallback _ _ _) as [[out' g'] ret].
  simpl in *. subst out' g'. rewrite Hg2, Hp2, Hd2. simpl.
  rewrite playback_frame by done.
  rewrite take_app_length, drop_all. done.
Qed.

Lemma X7_datagram_is_decoded_and_played_witness :
  Receiver.network_loop TestCodec.started = Receiver.InLoop
  /\ Receiver.played
       (Receiver.run TestCodec.started
          [Receiver.NetworkIter (Receiver.Datagram [x05; x01]);
           Receiver.DecoderIter;
           Receiver.Callback (length (replicate 320 5))
             (replicate 320 9)])
     = Receiver.played TestCodec.started ++ [replicate 320 5].
Proof.
  split; [reflexivity|].
  refine (proj1
    (X7_datagram_is_decoded_and_played TestCodec.started [x05; x01]
       [x05; x01] [x05; x01] (replicate 320 5) (replicate 320 9)
       eq_refl eq_refl eq_refl eq_refl eq_refl _ _ eq_refl eq_refl _)).
  - discriminate.
  - simpl. lia.
  - rewrite !length_replicate. lia.
Defined.

Lemma X5_workers_leave_their_loop_only_on_shutdown_witness :
  Receiver.network_loop
    (Receiver.run TestCodec.started
       [Receiver.NetworkIter Receiver.RecvError; Receiver.SetFinished;
        Receiver.NetworkIter Receiver.RecvError]) = Receiver.LoopExited
  /\ (Receiver.network_loop TestCodec.started = Receiver.LoopExited
      \/ Receiver.g_finished
           (Receiver.globals
              (Receiver.run TestCodec.started
                 [Receiver.NetworkIter Receiver.RecvError;
                  Receiver.SetFinished;
                  Receiver.NetworkIter Receiver.RecvError])) = true).
Proof.
  split; [reflexivity|].
  exact (proj1
    (X5_workers_leave_their_loop_only_on_shutdown
       [Receiver.NetworkIter Receiver.RecvError; Receiver.SetFinished;
        Receiver.NetworkIter Receiver.RecvError] TestCodec.started)
    eq_refl).
Defined.

(** ** The sender's threads together *)

Section sender_facts.
Context {E : Type} `{!LyraEncoder E}.
Implicit Types (s : Sender.System E) (g : Sender.Globals).

Lemma nonempty_packets_app (l k : list (list byte)) :
  Sender.nonempty_packets (l ++ k)
  = Sender.nonempty_packets l ++ Sender.nonempty_packets k.
Proof. apply List.filter_app. Qed.

Lemma sender_body_spec g :
  Sender.network_thread_body g
  = match Sender.g_encoded_packets_queue g with
    | [] => (Sender.set_queue [] g, None)
    | [] :: rest => (Sender.set_queue rest g, None)
    | (b :: packet) :: rest =>
        (Sender.set_queue rest g, Some (b :: packet))
    end.
Proof.
  unfold Sender.network_thread_body.
  destruct (Sender.g_encoded_packets_queue g) as [|[|b packet] rest];
    reflexivity.
Qed.

(** One step keeps the account of packets: those sent, followed by those
    queued that have a byte, grow by what the encoder yields at this
    step. *)
Lemma sender_step_account s a :
  Sender.sent (Sender.step s a)
    ++ Sender.nonempty_packets (Sender.g_encoded_packets_queue
                   (Sender.globals (Sender.step s a)))
  = (Sender.sent s
       ++ Sender.nonempty_packets (Sender.g_encoded_packets_queue (Sender.globals s)))
    ++ Sender.nonempty_packets (Sender.encoded_by (Sender.encoder s) [a]).
Proof.
  destruct a as [frameCount input| |]; simpl.
  - unfold Sender.audioCallback.
    destruct (Encode (Sender.encoder s) (take frameCount input))
      as [[packet|] e]; simpl.
    + unfold StdQueue.push. rewrite nonempty_packets_app. simpl.
      by rewrite <- app_assoc.
    + by rewrite app_nil_r.
  - rewrite app_nil_r.
    destruct (Sender.network_loop s); [|done].
    destruct (Sender.g_finished (Sender.globals s)); [done|].
    rewrite sender_body_spec.
    destruct (Sender.g_encoded_packets_queue (Sender.globals s))
      as [|[|b packet] rest]; simpl; try done.
    by rewrite <- app_assoc.
  - by rewrite app_nil_r.
Qed.

Lemma sender_step_encoder s a schedule :
  Sender.encoded_by (Sender.encoder s) (a :: schedule)
  = Sender.encoded_by (Sender.encoder s) [a]
      ++ Sender.encoded_by (Sender.encoder (Sender.step s a)) schedule.
Proof.
  destruct a as [frameCount input| |]; simpl.
  - unfold Sender.audioCallback.
    by destruct (Encode (Sender.encoder s) (take frameCount input))
      as [[packet|] e].
  - destruct (Sender.network_loop s); [|done].
    destruct (Sender.g_finished (Sender.globals s)); [done|].
    by destruct (Sender.network_thread_body (Sender.globals s)).
  - done.
Qed.

Lemma sender_run_account schedule : forall s,
  Sender.sent (Sender.run s schedule)
    ++ Sender.nonempty_packets (Sender.g_encoded_packets_queue
                   (Sender.globals (Sender.run s schedule)))
  = (Sender.sent s
       ++ Sender.nonempty_packets (Sender.g_encoded_packets_queue (Sender.globals s)))
    ++ Sender.nonempty_packets (Sender.encoded_by (Sender.encoder s) schedule).
Proof.
  induction schedule as [|a schedule IH]; intros s.
  - simpl. by rewrite app_nil_r.
  - cbn [Sender.run foldl]. unfold Sender.run in IH. rewrite IH.
    rewrite sender_step_account, (sender_step_encoder s a schedule).
    by rewrite nonempty_packets_app, <- !app_assoc.
Qed.

Lemma sender_step_sent_nonempty s a :
  Forall (fun packet : list byte => packet <> []) (Sender.sent s) ->
  Forall (fun packet : list byte => packet <> [])
    (Sender.sent (Sender.step s a)).
Proof.
  intros Hinv. destruct a as [frameCount input| |]; simpl.
  - by destruct (Sender.audioCallback _ _ _ _) as [[e g] ret].
  - destruct (Sender.network_loop s); [|done].
    destruct (Sender.g_finished (Sender.globals s)); [done|].
    rewrite sender_body_spec.
    destruct (Sender.g_encoded_packets_queue (Sender.globals s))
      as [|[|b packet] rest]; simpl; try done.
    apply Forall_app. split; [done|]. by apply Forall_singleton.
  - done.
Qed.

End sender_facts.

(** X8.  The sender transmits packets in the order the encoder produced
    them, each at most once and none out of turn.  Over any schedule of
    capture callbacks, passes of the network thread and the shutdown,
    the datagrams sent, followed by the queued packets that have a byte,
    are those sent and queued before followed by the packets with a byte
    that the encoder yields along the schedule; started with nothing
    sent and nothing queued, the datagrams sent are a prefix of the
    encoder's output. *)
Theorem X8_sender_sends_packets_in_encoding_order
    {E : Type} `{!LyraEncoder E} (schedule : list Sender.Action) :
  forall s : Sender.System E,
  let s' := Sender.run s schedule in
  let encoded :=
    Sender.nonempty_packets
      (Sender.encoded_by (Sender.encoder s) schedule) in
  Sender.sent s'
    ++ Sender.nonempty_packets
         (Sender.g_encoded_packets_queue (Sender.globals s'))
  = (Sender.sent s
       ++ Sender.nonempty_packets
            (Sender.g_encoded_packets_queue (Sender.globals s)))
    ++ encoded
  /\ (Sender.sent s = [] ->
      Sender.g_encoded_packets_queue (Sender.globals s) = [] ->
      Sender.sent s' `prefix_of` encoded).
Proof.
  intros s s' encoded. subst s' encoded.
  pose proof (sender_run_account schedule s) as Hacc.
  split; [exact Hacc|].
  intros Hsent Hqueue. rewrite Hsent, Hqueue in Hacc. simpl in Hacc.
  rewrite <- Hacc. by apply prefix_app_r.
Qed.

Lemma X8_sender_sends_packets_in_encoding_order_witness :
  Sender.sent TestCodec.sender_started = []
  /\ Sender.sent
       (Sender.run TestCodec.sender_started
          [Sender.Capture 2 [5; 6]; Sender.Capture 2 [-1; 6];
           Sender.Capture 2 [7; 8]; Sender.NetworkIter])
       `prefix_of`
     Sender.nonempty_packets
       (Sender.encoded_by tt
          [Sender.Capture 2 [5; 6]; Sender.Capture 2 [-1; 6];
           Sender.Capture 2 [7; 8]; Sender.NetworkIter]).
Proof.
  split; [reflexivity|].
  exact (proj2
    (X8_sender_sends_packets_in_encoding_order
       [Sender.Capture 2 [5; 6]; Sender.Capture 2 [-1; 6];
        Sender.Capture 2 [7; 8]; Sender.NetworkIter]
       TestCodec.sender_started) eq_refl eq_refl).
Defined.

(** X9.  The sender never hands an empty datagram to [sendto]: a packet
    without a byte taken from the queue is dropped.  Every datagram sent
    along any schedule has at least one byte. *)
Theorem X9_sender_never_sends_an_empty_datagram
    {E : Type} `{!LyraEncoder E} (schedule : list Sender.Action) :
  forall s : Sender.System E,
  Forall (fun packet : list byte => packet <> []) (Sender.sent s) ->
  Forall (fun packet : list byte => packet <> [])
    (Sender.sent (Sender.run s schedule)).
Proof.
  induction schedule as [|a schedule IH]; intros s Hinv; [done|].
  cbn [Sender.run foldl]. apply IH. by apply sender_step_sent_nonempty.
Qed.

Lemma X9_sender_never_sends_an_empty_datagram_witness :
  Forall (fun packet : list byte => packet <> [])
    (Sender.sent TestCodec.sender_started)
  /\ Forall (fun packet : list byte => packet <> [])
       (Sender.sent
          (Sender.run TestCodec.sender_started
             [Sender.Capture 2 [5; 6]; Sender.NetworkIter;
              Sender.NetworkIter])).
Proof.
  assert (H : Forall (fun packet : list byte => packet <> [])
                (Sender.sent TestCodec.sender_started))
    by constructor.
  split; [exact H|].
  exact (X9_sender_never_sends_an_empty_datagram
           [Sender.Capture 2 [5; 6]; Sender.NetworkIter;
            Sender.NetworkIter] TestCodec.sender_started H).
Defined.

(** ** The loopback demo's output buffer *)

Section demo_buffer_facts.
Implicit Types (src out : list Z) (n : nat) (v : Z).

Lemma std_copy_snoc src (x : Z) out :
  Demo.std_copy (src ++ [x]) out
  = <[length src := x]> (Demo.std_copy src out).
Proof.
  unfold Demo.std_copy. rewrite imap_app, foldl_app. simpl.
  by rewrite Nat.add_0_r.
Qed.

(** [std::copy] into a buffer with room for the source. *)
Lemma std_copy_spec src out :
  (length src <= length out)%nat ->
  Demo.std_copy src out = src ++ drop (length src) out.
Proof.
  induction src as [|x src IH] using rev_ind; intros Hlen.
  - by rewrite drop_0.
  - rewrite length_app in *. simpl in Hlen.
    rewrite std_copy_snoc, IH by lia.
    rewrite insert_app_r_alt by lia. rewrite Nat.sub_diag.
    destruct (lookup_lt_is_Some_2 out (length src)) as [y Hy]; [lia|].
    rewrite (drop_S out y (length src)) by done. simpl.
    rewrite <- app_assoc. simpl. by rewrite Nat.add_1_r.
Qed.

(** [std::fill] on a buffer with room for [n] values. *)
Lemma std_fill_spec n v out :
  (n <= length out)%nat ->
  Demo.std_fill n v out = replicate n v ++ drop n out.
Proof.
  intros Hlen. apply list_eq. intros i.
  destruct (decide (i < n)%nat) as [Hi|Hi].
  - rewrite std_fill_lookup by lia.
    rewrite lookup_app_l by (rewrite length_replicate; lia).
    by rewrite lookup_replicate_2.
  - rewrite std_fill_untouched by lia.
    rewrite lookup_app_r by (rewrite length_replicate; lia).
    rewrite length_replicate, lookup_drop. f_equal. lia.
Qed.
End demo_buffer_facts.

(** X11.  When every stage of the loopback callback succeeds, the output
    buffer receives all the samples the decoder returned, from position
    0 on, and keeps its content behind them.  So a decoder that returns
    fewer samples than [frameCount] leaves the end of the frame as it
    was: that part is not zeroed.  The encoder and the decoder advance,
    and the callback returns [paContinue]. *)
Theorem X11_demo_callback_copies_the_decoded_samples
    {E D : Type} `{!LyraEncoder E} `{!LyraDecoder D}
    (frameCount : nat) (input out : list Z) (encoder e1 : E)
    (decoder d1 d2 : D) (packet : list byte) (samples : list Z) :
  Encode encoder (take frameCount input) = (Some packet, e1) ->
  SetEncodedPacket decoder packet = (true, d1) ->
  DecodeSamples d1 (Z.of_nat frameCount) = (Some samples, d2) ->
  (length samples <= length out)%nat ->
  Demo.audioCallback frameCount input out encoder decoder
  = (samples ++ drop (length samples) out, e1, d2, paContinue).
Proof.
  intros Henc Hset Hsam Hlen. unfold Demo.audioCallback.
  rewrite Henc, Hset, Hsam. by rewrite std_copy_spec.
Qed.

Lemma X11_demo_callback_copies_the_decoded_samples_witness :
  (length (replicate 2 5) <= length [9; 9; 9; 9])%nat
  /\ Demo.audioCallback 2 [5; 6; 7] [9; 9; 9; 9] tt ([] : list byte)
     = (replicate 2 5 ++ drop (length (replicate 2 5)) [9; 9; 9; 9],
        tt, [x05], paContinue).
Proof.
  assert (H : (length (replicate 2 5) <= length [9; 9; 9; 9])%nat)
    by (simpl; lia).
  split; [exact H|].
  exact (X11_demo_callback_copies_the_decoded_samples
           2 [5; 6; 7] [9; 9; 9; 9] tt tt ([] : list byte) [x05] [x05]
           [x05] (replicate 2 5) eq_refl eq_refl eq_refl H).
Defined.

(** X12.  What a failing loopback callback leaves behind.  The output
    buffer is [frameCount] zeros followed by its old content from
    position [frameCount] on.  A failed encode leaves the decoder
    untouched; a refused packet and a missing frame leave the decoder as
    the failing call left it; the encoder has advanced in every case. *)
Theorem X12_demo_callback_failure_results
    {E D : Type} `{!LyraEncoder E} `{!LyraDecoder D}
    (frameCount : nat) (input out : list Z) (encoder : E) (decoder : D) :
  (frameCount <= length out)%nat ->
  let result := Demo.audioCallback frameCount input out encoder decoder in
  let frame := take frameCount input in
  let silence := replicate frameCount 0 ++ drop frameCount out in
  (forall e1,
     Encode encoder frame = (None, e1) ->
     result = (silence, e1, decoder, paContinue))
  /\ (forall packet e1 d1,
        Encode encoder frame = (Some packet, e1) ->
        SetEncodedPacket decoder packet = (false, d1) ->
        result = (silence, e1, d1, paContinue))
  /\ (forall packet e1 d1 d2,
        Encode encoder frame = (Some packet, e1) ->
        SetEncodedPacket decoder packet = (true, d1) ->
        DecodeSamples d1 (Z.of_nat frameCount) = (None, d2) ->
        result = (silence, e1, d2, paContinue)).
Proof.
  intros Hlen result frame silence. subst result frame silence.
  unfold Demo.audioCallback. rewrite frame_samples.
  rewrite std_fill_spec by done.
  split; [|split].
  - intros e1 Henc. by rewrite Henc.
  - intros packet e1 d1 Henc Hset. by rewrite Henc, Hset.
  - intros packet e1 d1 d2 Henc Hset Hsam. by rewrite Henc, Hset, Hsam.
Qed.

Lemma X12_demo_callback_failure_results_witness :
  (2 <= length [9; 9; 9])%nat
  /\ Demo.audioCallback 2 [255; 6] [9; 9; 9] tt ([x03] : list byte)
     = (replicate 2 0 ++ drop 2 [9; 9; 9], tt, [x03], paContinue).
Proof.
  assert (H : (2 <= length [9; 9; 9])%nat) by (simpl; lia).
  split; [exact H|].
  exact (proj1 (proj2
    (X12_demo_callback_failure_results 2 [255; 6] [9; 9; 9] tt
       ([x03] : list byte) H)) [xff] tt [x03] eq_refl eq_refl).
Defined.

(** ** More on the three [main] functions *)

(** Splits a goal about [Demo.main] into one goal per path. *)
Ltac demo_paths :=
  unfold Demo.main, Demo.PA_CHECK, Demo.error, paNoError, paNoDevice in *;
  cbn in *;
  repeat match goal with
         | |- context [Z.eqb ?a ?b] => destruct (Z.eqb_spec a b); cbn in *
         end.

(** X13.  The loopback demo exits with code 0 exactly when both codec
    objects were created, PortAudio was initialised, both default
    devices exist, and the stream was opened, started, stopped and
    closed without error; on every other path it exits with code 1. *)
Theorem X13_demo_exit_code (env : Demo.Env) :
  ((Demo.main env).2 = Exit 0 <->
   Demo.encoder_created env = true
   /\ Demo.decoder_created env = true
   /\ Demo.initialize_result env = paNoError
   /\ Demo.default_input_device env <> paNoDevice
   /\ Demo.default_output_device env <> paNoDevice
   /\ Demo.open_stream_result env = paNoError
   /\ Demo.start_stream_result env = paNoError
   /\ Demo.stop_stream_result env = paNoError
   /\ Demo.close_stream_result env = paNoError)
  /\ ((Demo.main env).2 = Exit 0 \/ (Demo.main env).2 = Exit 1).
Proof.
  destruct env as [enc dec init din dout op st sp cl].
  destruct enc, dec; demo_paths;
    (split; [split; [intros; try discriminate; repeat split; congruence
                    |intros (? & ? & ? & ? & ? & ? & ? & ? & ?);
                     try reflexivity; congruence]
            |tauto]).
Qed.

(** X14.  Whenever both codec objects exist, the loopback demo calls
    [Pa_Terminate] exactly once, as the last library call of [main], on
    the clean path as on every error path. *)
Theorem X14_demo_terminates_portaudio_once (env : Demo.Env) :
  Demo.encoder_created env = true ->
  Demo.decoder_created env = true ->
  last (Demo.main env).1 = Some Pa_Terminate
  /\ length (filter (fun e => e = Pa_Terminate) (Demo.main env).1) = 1%nat.
Proof.
  destruct env as [enc dec init din dout op st sp cl]. cbn.
  intros -> ->. demo_paths; split; reflexivity.
Qed.

Lemma X14_demo_terminates_portaudio_once_witness :
  Demo.encoder_created (Demo.mkEnv true true 0 0 1 (-9986) 0 0 0) = true
  /\ last (Demo.main (Demo.mkEnv true true 0 0 1 (-9986) 0 0 0)).1
     = Some Pa_Terminate.
Proof.
  split; [reflexivity|].
  exact (proj1
    (X14_demo_terminates_portaudio_once
       (Demo.mkEnv true true 0 0 1 (-9986) 0 0 0) eq_refl eq_refl)).
Defined.

(** X15.  The macro [PA_CHECK] expands its argument twice.  When a
    checked PortAudio call fails in the loopback demo, [main] issues the
    same call a second time, for the text of the error message, before
    it terminates PortAudio: with both codec objects and both default
    devices present, every run that exits with code 1 ends with the
    failed call, the same call again, [Pa_GetErrorText] and
    [Pa_Terminate]. *)
Theorem X15_demo_repeats_the_failed_call (env : Demo.Env) :
  Demo.encoder_created env = true ->
  Demo.decoder_created env = true ->
  Demo.default_input_device env <> paNoDevice ->
  Demo.default_output_device env <> paNoDevice ->
  (Demo.main env).2 = Exit 1 ->
  exists e before,
    e ∈ [Pa_Initialize; Pa_OpenStream; Pa_StartStream; Pa_StopStream;
         Pa_CloseStream]
    /\ (Demo.main env).1
       = before ++ [e; e; Pa_GetErrorText; Pa_Terminate].
Proof.
  destruct env as [enc dec init din dout op st sp cl]. cbn.
  intros -> -> Hin Hout. demo_paths; intros Hexit; try done.
  - exists Pa_CloseStream. eexists (_ :: _ :: _ :: _ :: _ :: _ :: _ :: _ :: _ :: _ :: _ :: []).
    split; [|reflexivity]. apply list_elem_of_In; cbn; tauto.
  - exists Pa_StopStream. eexists (_ :: _ :: _ :: _ :: _ :: _ :: _ :: _ :: _ :: _ :: []).
    split; [|reflexivity]. apply list_elem_of_In; cbn; tauto.
  - exists Pa_StartStream. eexists (_ :: _ :: _ :: _ :: _ :: _ :: _ :: _ :: []).
    split; [|reflexivity]. apply list_elem_of_In; cbn; tauto.
  - exists Pa_OpenStream. eexists (_ :: _ :: _ :: _ :: _ :: _ :: _ :: []).
    split; [|reflexivity]. apply list_elem_of_In; cbn; tauto.
  - exists Pa_Initialize. eexists (_ :: _ :: []).
    split; [|reflexivity]. apply list_elem_of_In; cbn; tauto.
Qed.

Lemma X15_demo_repeats_the_failed_call_witness :
  (Demo.main (Demo.mkEnv true true 0 0 1 0 (-9999) 0 0)).2 = Exit 1
  /\ exists e before,
       e ∈ [Pa_Initialize; Pa_OpenStream; Pa_StartStream; Pa_StopStream;
            Pa_CloseStream]
       /\ (Demo.main (Demo.mkEnv true true 0 0 1 0 (-9999) 0 0)).1
          = before ++ [e; e; Pa_GetErrorText; Pa_Terminate].
Proof.
  split; [reflexivity|].
  refine (X15_demo_repeats_the_failed_call
            (Demo.mkEnv true true 0 0 1 0 (-9999) 0 0)
            eq_refl eq_refl _ _ eq_refl); discriminate.
Defined.

(** X16.  How the receiver's and the sender's [main] end.  With a wrong
    number of arguments they return 1 without any library call; with a
    port that [std::stoi] rejects they are left by its exception before
    the codec object is created.  They return 0 exactly when the
    argument count is right, the port is a number, the codec object was
    created, [Pa_GetDeviceInfo] returned a device record and the stream
    was opened.  With the codec object created, a null answer of
    [Pa_GetDeviceInfo] (no default device) or a stream that was not
    opened leads [main] into undefined behaviour, not to an exit
    code. *)
Theorem X16_receiver_and_sender_outcomes
    (platform : Platform) (argc : Z) (port : option Z) (created : bool)
    (pa : PaAnswers) :
  (argc <> 2 ->
   Receiver.main platform argc port created pa = ([], Exit 1))
  /\ (argc = 2 -> port = None ->
      Receiver.main platform argc port created pa
      = ([], UncaughtException))
  /\ ((Receiver.main platform argc port created pa).2 = Exit 0 <->
      argc = 2 /\ is_Some port /\ created = true
      /\ device_info_found pa = true /\ stream_opened pa = true)
  /\ ((Receiver.main platform argc port created pa).2
      = UndefinedBehaviour <->
      argc = 2 /\ is_Some port /\ created = true
      /\ (device_info_found pa = false \/ stream_opened pa = false))
  /\ (argc <> 3 -> Sender.main argc port created pa = ([], Exit 1))
  /\ (argc = 3 -> port = None ->
      Sender.main argc port created pa = ([], UncaughtException))
  /\ ((Sender.main argc port created pa).2 = Exit 0 <->
      argc = 3 /\ is_Some port /\ created = true
      /\ device_info_found pa = true /\ stream_opened pa = true)
  /\ ((Sender.main argc port created pa).2 = UndefinedBehaviour <->
      argc = 3 /\ is_Some port /\ created = true
      /\ (device_info_found pa = false \/ stream_opened pa = false)).
Proof.
  unfold Receiver.main, Sender.main.
  destruct (Z.eqb_spec argc 2), (Z.eqb_spec argc 3), port, created,
    pa as [[] []]; cbn;
    repeat split; intros; try done; try lia;
    repeat match goal with
           | H : _ /\ _ |- _ => destruct H
           | H : _ \/ _ |- _ => destruct H
           | H : is_Some None |- _ => destruct H; discriminate
           end; try done; try lia; auto.
Qed.

Lemma X16_receiver_and_sender_outcomes_witness :
  (7 <> 2)
  /\ Receiver.main Posix 7 (Some 5000) true (mkPaAnswers true true)
     = ([], Exit 1)
  /\ Sender.main 3 None true (mkPaAnswers true true)
     = ([], UncaughtException)
  /\ (Receiver.main Posix 2 (Some 5000) true (mkPaAnswers false true)).2
     = UndefinedBehaviour.
Proof.
  assert (H : 7 <> 2) by discriminate.
  split; [exact H|]. split; [|split].
  - exact (proj1 (X16_receiver_and_sender_outcomes Posix 7 (Some 5000)
                    true (mkPaAnswers true true)) H).
  - destruct (X16_receiver_and_sender_outcomes Posix 3 None true
                (mkPaAnswers true true))
      as (_ & _ & _ & _ & _ & Hthrow & _).
    exact (Hthrow eq_refl eq_refl).
  - destruct (X16_receiver_and_sender_outcomes Posix 2 (Some 5000) true
                (mkPaAnswers false true))
      as (_ & _ & _ & Hub & _).
    apply Hub. split; [reflexivity|]. split; [by exists 5000|].
    split; [reflexivity|]. left. reflexivity.
Defined.

(** X17.  A [main] that returns leaves no thread running and PortAudio
    terminated.  In every run of the receiver and of the sender that
    ends with an exit code or with the exception of [std::stoi], a
    thread is joined exactly when it was started, and after its start,
    [Pa_Terminate] is called exactly when [Pa_Initialize] was, and the
    stream is stopped after it was started.  A run that ends in
    undefined behaviour has started the network thread and initialised
    PortAudio and has neither joined a thread nor terminated PortAudio.
    The sender starts no decoder thread. *)
Theorem X17_threads_joined_and_portaudio_terminated
    (platform : Platform) (argc : Z) (port : option Z) (created : bool)
    (pa : PaAnswers) (t : Thread) :
  (forall run,
     run = Receiver.main platform argc port created pa
     \/ run = Sender.main argc port created pa ->
     (run.2 <> UndefinedBehaviour ->
      (thread_start t ∈ run.1 <-> thread_join t ∈ run.1)
      /\ precedes (thread_start t) (thread_join t) run.1
      /\ (Pa_Initialize ∈ run.1 <-> Pa_Terminate ∈ run.1)
      /\ precedes Pa_Initialize Pa_Terminate run.1
      /\ precedes Pa_StartStream Pa_StopStream run.1)
     /\ (run.2 = UndefinedBehaviour ->
         thread_start network_thread ∈ run.1
         /\ (thread_join t ∉ run.1)
         /\ Pa_Initialize ∈ run.1
         /\ (Pa_Terminate ∉ run.1)))
  /\ (thread_start decoder_thread
        ∉ (Sender.main argc port created pa).1).
Proof.
  unfold Receiver.main, Sender.main.
  destruct (Z.eqb_spec argc 2), (Z.eqb_spec argc 3), port, created,
    pa as [[] []], platform, t; cbn.
  all: split;
    [intros run [-> | ->]; cbn
    |intros Hin; apply list_elem_of_In in Hin; cbn in Hin;
     intuition discriminate].
  all: split; [intros Hdef|intros Hub]; try done;
    try (by destruct Hdef).
  all: try (split;
             [split; intros Hin; apply list_elem_of_In in Hin;
              apply list_elem_of_In; cbn in *; intuition discriminate|];
            split; [solve_precedes|];
            split;
             [split; intros Hin; apply list_elem_of_In in Hin;
              apply list_elem_of_In; cbn in *; intuition discriminate|];
            split; solve_precedes).
  all: split; [solve_occurs|];
    (split; [intros Hin; apply list_elem_of_In in Hin; cbn in Hin;
             intuition discriminate|]);
    split; [solve_occurs|];
    intros Hin; apply list_elem_of_In in Hin; cbn in Hin;
    intuition discriminate.
Qed.

Lemma X17_threads_joined_and_portaudio_terminated_witness :
  (Receiver.main Posix 2 (Some 5000) true (mkPaAnswers true true)).2
  <> UndefinedBehaviour
  /\ thread_start decoder_thread
       ∈ (Receiver.main Posix 2 (Some 5000) true
            (mkPaAnswers true true)).1
  /\ thread_join decoder_thread
       ∈ (Receiver.main Posix 2 (Some 5000) true
            (mkPaAnswers true true)).1
  /\ (Receiver.main Posix 2 (Some 5000) true (mkPaAnswers false true)).2
     = UndefinedBehaviour
  /\ (thread_join decoder_thread
        ∉ (Receiver.main Posix 2 (Some 5000) true
             (mkPaAnswers false true)).1).
Proof.
  assert (Hdef : (Receiver.main Posix 2 (Some 5000) true
                    (mkPaAnswers true true)).2 <> UndefinedBehaviour)
    by discriminate.
  assert (H : thread_start decoder_thread
                ∈ (Receiver.main Posix 2 (Some 5000) true
                     (mkPaAnswers true true)).1)
    by (apply list_elem_of_In; cbn; tauto).
  split; [exact Hdef|]. split; [exact H|]. split; [|split].
  - destruct (proj1 (X17_threads_joined_and_portaudio_terminated
                       Posix 2 (Some 5000) true (mkPaAnswers true true)
                       decoder_thread)
                (Receiver.main Posix 2 (Some 5000) true
                   (mkPaAnswers true true))
                (or_introl eq_refl)) as [Hret _].
    exact (proj1 (proj1 (Hret Hdef)) H).
  - reflexivity.
  - destruct (proj1 (X17_threads_joined_and_portaudio_terminated
                       Posix 2 (Some 5000) true (mkPaAnswers false true)
                       decoder_thread)
                (Receiver.main Posix 2 (Some 5000) true
                   (mkPaAnswers false true))
                (or_introl eq_refl)) as [_ Hub].
    exact (proj1 (proj2 (Hub eq_refl))).
Defined.

(** ** Queue round trip *)

Section queue_round_trip.
Context {T : Type}.
Implicit Types (q xs : list T).

Lemma run_pushes xs : forall q (ops : list (StdQueue.op T)),
  StdQueue.run ((StdQueue.Push <$> xs) ++ ops) q
  = StdQueue.run ops (q ++ xs).
Proof.
  induction xs as [|x xs IH]; intros q ops; simpl.
  - by rewrite app_nil_r.
  - rewrite IH. unfold StdQueue.push. by rewrite <- app_assoc.
Qed.

Lemma run_pops q : forall n,
  StdQueue.run (replicate n StdQueue.TryPop) q
  = ((Some <$> take n q) ++ replicate (n - length q) None, drop n q).
Proof.
  induction q as [|x q IH]; intros n.
  - rewrite take_nil, drop_nil. simpl. rewrite Nat.sub_0_r.
    induction n as [|n IHn]; [done|]. simpl. by rewrite IHn.
  - destruct n as [|n]; [done|]. simpl. by rewrite IH.
Qed.
End queue_round_trip.

(** X18.  A queue gives back what was put in.  Pushing the items [xs]
    onto a queue holding [q] and then popping [n] times yields the first
    [n] items of [q ++ xs], in that order, followed by an empty answer
    for every pop beyond their number, and leaves the other items
    queued. *)
Theorem X18_queue_push_then_pop_round_trip
    {T : Type} (q xs : list T) (n : nat) :
  StdQueue.run
    ((StdQueue.Push <$> xs) ++ replicate n StdQueue.TryPop) q
  = ((Some <$> take n (q ++ xs))
       ++ replicate (n - length (q ++ xs)) None,
     drop n (q ++ xs)).
Proof. by rewrite run_pushes, run_pops. Qed.

(** ** Datagrams through the receiver, in order *)

Section receive_then_decode.
Context {D : Type} `{!LyraDecoder D}.
Implicit Types (s : Receiver.System D).

(** The network thread, left alone with datagrams of 1 to 256 bytes,
    appends them to the jitter buffer in arrival order and changes
    nothing else. *)
Lemma run_network_receives payloads : forall s,
  Receiver.network_loop s = Receiver.InLoop ->
  Receiver.g_finished (Receiver.globals s) = false ->
  Forall (fun payload : list byte =>
            payload <> [] /\ (length payload <= 256)%nat) payloads ->
  let s' :=
    Receiver.run s
      ((fun payload => Receiver.NetworkIter (Receiver.Datagram payload))
         <$> payloads) in
  Receiver.globals s'
  = Receiver.set_jitter
      (Receiver.g_jitter_buffer (Receiver.globals s) ++ payloads)
      (Receiver.globals s)
  /\ Receiver.decoder s' = Receiver.decoder s
  /\ Receiver.network_loop s' = Receiver.InLoop
  /\ Receiver.decoder_loop s' = Receiver.decoder_loop s
  /\ Receiver.played s' = Receiver.played s.
Proof.
  induction payloads as [|payload payloads IH]; intros s Hn Hf Hall.
  - simpl. rewrite app_nil_r. by destruct s as [[] ? ? ? ?].
  - apply Forall_cons in Hall as [[Hne Hlen] Hall].
    cbn [fmap list_fmap Receiver.run foldl].
    set (s1 := Receiver.step s _).
    assert (Receiver.globals s1
            = Receiver.set_jitter
                (Receiver.g_jitter_buffer (Receiver.globals s) ++ [payload])
                (Receiver.globals s)
            /\ Receiver.decoder s1 = Receiver.decoder s
            /\ Receiver.network_loop s1 = Receiver.InLoop
            /\ Receiver.decoder_loop s1 = Receiver.decoder_loop s
            /\ Receiver.played s1 = Receiver.played s)
      as (Hg1 & Hd1 & Hn1 & Hl1 & Hp1).
    { subst s1. simpl. rewrite Hn, Hf. simpl.
      rewrite network_thread_body_datagram by done.
      by rewrite take_ge by done. }
    destruct (IH s1) as (Hg & Hd & Hn' & Hl & Hp); try done.
    { by rewrite Hg1. }
    unfold Receiver.run in *.
    rewrite Hg, Hd, Hn', Hl, Hp, Hg1, Hd1, Hl1, Hp1. simpl.
    by rewrite <- app_assoc.
Qed.
End receive_then_decode.

(** X19.  Datagrams are decoded in the order they arrive.  When the
    network thread has received a sequence of datagrams of 1 to 256
    bytes, which the codec decodes one after the other, and the decode
    worker has made as many passes as there were datagrams, the jitter
    buffer is empty again and the sample queue has grown by the decoded
    frames, joined in arrival order. *)
Theorem X19_datagrams_are_decoded_in_arrival_order
    {D : Type} `{!LyraDecoder D} (s : Receiver.System D)
    (payloads : list (list byte)) (frames : list (list Z)) :
  Receiver.network_loop s = Receiver.InLoop ->
  Receiver.decoder_loop s = Receiver.InLoop ->
  Receiver.g_finished (Receiver.globals s) = false ->
  Receiver.g_jitter_buffer (Receiver.globals s) = [] ->
  Forall (fun payload : list byte =>
            payload <> [] /\ (length payload <= 256)%nat) payloads ->
  Receiver.decode_frames (Receiver.decoder s) payloads = Some frames ->
  let s' :=
    Receiver.run s
      (((fun payload => Receiver.NetworkIter (Receiver.Datagram payload))
          <$> payloads)
       ++ replicate (length payloads) Receiver.DecoderIter) in
  Receiver.g_jitter_buffer (Receiver.globals s') = []
  /\ Receiver.g_pcm_buffer (Receiver.globals s')
     = Receiver.g_pcm_buffer (Receiver.globals s) ++ concat frames.
Proof.
  intros Hn Hd Hf Hj Hall Hdec s'. subst s'.
  unfold Receiver.run. rewrite foldl_app.
  destruct (run_network_receives payloads s Hn Hf Hall)
    as (Hg & Hd1 & _ & Hl1 & _).
  unfold Receiver.run in Hg, Hd1, Hl1.
  set (s1 := foldl Receiver.step s _) in *.
  destruct (run_decoder_drains payloads s1 frames) as (Hj' & Hp' & _).
  - eapply Forall_impl; [exact Hall|]. by intros payload [? _].
  - by rewrite Hd1.
  - by rewrite Hg, Hj.
  - by rewrite Hg.
  - by rewrite Hl1.
  - unfold Receiver.run in *. split; [exact Hj'|].
    by rewrite Hp', Hg.
Qed.

Lemma X19_datagrams_are_decoded_in_arrival_order_witness :
  Receiver.network_loop TestCodec.started = Receiver.InLoop
  /\ Receiver.g_pcm_buffer
       (Receiver.globals
          (Receiver.run TestCodec.started
             (((fun payload =>
                  Receiver.NetworkIter (Receiver.Datagram payload))
                 <$> [[x05; x01]; [x06]])
              ++ replicate (length [[x05; x01]; [x06]])
                   Receiver.DecoderIter)))
     = Receiver.g_pcm_buffer (Receiver.globals TestCodec.started)
         ++ concat [replicate 320 5; replicate 320 6].
Proof.
  split; [reflexivity|].
  refine (proj2
    (X19_datagrams_are_decoded_in_arrival_order TestCodec.started
       [[x05; x01]; [x06]] [replicate 320 5; replicate 320 6]
       eq_refl eq_refl eq_refl eq_refl _ _)).
  - repeat constructor; try discriminate; simpl; lia.
  - vm_compute. reflexivity.
Defined.

(** ** Shutdown, with the loop test as a step of its own *)

Section receiver_shutdown.
Context {D : Type} `{!LyraDecoder D}.
Implicit Types (s : Receiver.System D) (f : Receiver.FineSystem D)
  (g : Receiver.Globals).

(** A pass of [System] is the test followed by the body. *)
Lemma step_refines s a :
  Receiver.fine_run (Receiver.refine s) (Receiver.fine_actions a)
  = Receiver.refine (Receiver.step s a).
Proof.
  destruct s as [g d nl dl pl].
  destruct a as [r| |frameCount out|]; cbn.
  - destruct nl; cbn; [|done]. unfold Receiver.loop_test.
    by destruct (Receiver.g_finished g).
  - destruct dl; cbn; [|done]. unfold Receiver.loop_test.
    destruct (Receiver.g_finished g); cbn; [done|].
    by destruct (Receiver.decoder_thread_body d g).
  - by destruct (Receiver.audioCallback frameCount out g) as [[out' g'] ret].
  - done.
Qed.

Lemma run_refines schedule : forall s,
  Receiver.fine_run (Receiver.refine s)
    (concat (Receiver.fine_actions <$> schedule))
  = Receiver.refine (Receiver.run s schedule).
Proof.
  induction schedule as [|a schedule IH]; intros s; [done|].
  cbn [fmap list_fmap concat Receiver.run foldl].
  pose proof (step_refines s a) as Hstep.
  unfold Receiver.fine_run in *. rewrite foldl_app, Hstep. apply IH.
Qed.

(** The loop body of the network thread appends at most one packet. *)
Lemma network_thread_body_pushes r g :
  exists pushed,
    Receiver.g_jitter_buffer (Receiver.network_thread_body r g)
    = Receiver.g_jitter_buffer g ++ pushed
    /\ (length pushed <= 1)%nat.
Proof.
  destruct (Z.lt_ge_cases 0 (Receiver.recvfrom (replicate 256 x00) r).1)
    as [Hpos|Hle].
  - destruct (recvfrom_positive r Hpos) as (payload & -> & Hne).
    rewrite network_thread_body_datagram by done.
    by exists [take 256 payload].
  - rewrite network_thread_body_nothing by done.
    exists []. rewrite app_nil_r. split; [done|]. simpl. lia.
Qed.

Lemma network_thread_body_finished r g :
  Receiver.g_finished (Receiver.network_thread_body r g)
  = Receiver.g_finished g.
Proof.
  destruct (Z.lt_ge_cases 0 (Receiver.recvfrom (replicate 256 x00) r).1)
    as [Hpos|Hle].
  - destruct (recvfrom_positive r Hpos) as (payload & -> & Hne).
    by rewrite network_thread_body_datagram.
  - by rewrite network_thread_body_nothing.
Qed.

Lemma decoder_thread_body_finished (d : D) g :
  Receiver.g_finished (Receiver.decoder_thread_body d g).2
  = Receiver.g_finished g.
Proof.
  destruct (Receiver.g_jitter_buffer g) as [|packet rest] eqn:Hq.
  - by rewrite decoder_thread_body_idle.
  - destruct (decide (packet = [])) as [->|Hne].
    + by rewrite (decoder_thread_body_empty_packet d g rest).
    + rewrite (decoder_thread_body_packet d g packet rest) by done.
      destruct (SetEncodedPacket d packet) as [[] d1]; [|done].
      by destruct (DecodeSamples d1 kFramesPerBuffer) as [[samples|] d2].
Qed.

(** One step with the flag set: the flag stays set; the jitter buffer
    gains and loses a packet only through a pass in flight, which is
    then over; a decode worker with no pass in flight leaves the decoder
    alone and the sample queue can only lose samples at its head. *)
Lemma fine_step_after_flag f a :
  Receiver.g_finished (Receiver.fine_globals f) = true ->
  let f1 := Receiver.fine_step f a in
  Receiver.g_finished (Receiver.fine_globals f1) = true
  /\ (exists popped pushed,
        Receiver.g_jitter_buffer (Receiver.fine_globals f) ++ pushed
        = popped ++ Receiver.g_jitter_buffer (Receiver.fine_globals f1)
        /\ (length pushed + Receiver.in_flight (Receiver.network_at f1)
            <= Receiver.in_flight (Receiver.network_at f))%nat
        /\ (length popped + Receiver.in_flight (Receiver.decoder_at f1)
            <= Receiver.in_flight (Receiver.decoder_at f))%nat)
  /\ (Receiver.decoder_at f <> Receiver.InBody ->
      Receiver.fine_decoder f1 = Receiver.fine_decoder f
      /\ exists k,
           Receiver.g_pcm_buffer (Receiver.fine_globals f1)
           = drop k (Receiver.g_pcm_buffer (Receiver.fine_globals f))).
Proof.
  intros Hfin.
  assert (forall f' : Receiver.FineSystem D,
            Receiver.fine_globals f' = Receiver.fine_globals f ->
            Receiver.fine_decoder f' = Receiver.fine_decoder f ->
            (Receiver.in_flight (Receiver.network_at f')
             <= Receiver.in_flight (Receiver.network_at f))%nat ->
            (Receiver.in_flight (Receiver.decoder_at f')
             <= Receiver.in_flight (Receiver.decoder_at f))%nat ->
            Receiver.g_finished (Receiver.fine_globals f') = true
            /\ (exists popped pushed,
                  Receiver.g_jitter_buffer (Receiver.fine_globals f)
                    ++ pushed
                  = popped
                      ++ Receiver.g_jitter_buffer (Receiver.fine_globals f')
                  /\ (length pushed
                      + Receiver.in_flight (Receiver.network_at f')
                      <= Receiver.in_flight (Receiver.network_at f))%nat
                  /\ (length popped
                      + Receiver.in_flight (Receiver.decoder_at f')
                      <= Receiver.in_flight (Receiver.decoder_at f))%nat)
            /\ (Receiver.decoder_at f <> Receiver.InBody ->
                Receiver.fine_decoder f' = Receiver.fine_decoder f
                /\ exists k,
                     Receiver.g_pcm_buffer (Receiver.fine_globals f')
                     = drop k
                         (Receiver.g_pcm_buffer (Receiver.fine_globals f))))
    as Hsame.
  { intros f' Hg Hd Hn Hl. rewrite Hg. split; [done|]. split.
    - exists [], []. rewrite app_nil_r. simpl. by repeat split.
    - intros _. split; [done|]. by exists 0%nat. }
  destruct a as [|r| | |frameCount out|]; cbn.
  - destruct (Receiver.network_at f) eqn:Hat;
      try (apply Hsame; try done; rewrite ?Hat; simpl; lia).
    apply Hsame; try done. cbn. unfold Receiver.loop_test.
    rewrite ?Hfin, ?Hat. simpl. lia.
  - destruct (Receiver.network_at f) eqn:Hat;
      try (apply Hsame; try done; rewrite ?Hat; simpl; lia).
    cbn. rewrite network_thread_body_finished.
    split; [done|]. split.
    + destruct (network_thread_body_pushes r (Receiver.fine_globals f))
        as (pushed & Hpush & Hlen).
      exists [], pushed. rewrite Hpush. simpl. repeat split; lia.
    + intros _. split; [done|]. exists 0%nat.
      by rewrite network_thread_body_pcm.
  - destruct (Receiver.decoder_at f) eqn:Hat;
      try (apply Hsame; try done; rewrite ?Hat; simpl; lia).
    apply Hsame; try done. cbn. unfold Receiver.loop_test.
    rewrite ?Hfin, ?Hat. simpl. lia.
  - destruct (Receiver.decoder_at f) eqn:Hat;
      try (apply Hsame; try done; rewrite ?Hat; simpl; lia).
    pose proof (decoder_thread_body_jitter (Receiver.fine_decoder f)
                  (Receiver.fine_globals f)) as Hj.
    pose proof (decoder_thread_body_finished (Receiver.fine_decoder f)
                  (Receiver.fine_globals f)) as Hf.
    destruct (Receiver.decoder_thread_body _ _) as [d g]. cbn in *.
    rewrite Hf, Hj. split; [done|]. split; [|done].
    exists (take 1 (Receiver.g_jitter_buffer (Receiver.fine_globals f))),
      [].
    rewrite app_nil_r.
    destruct (Receiver.g_jitter_buffer (Receiver.fine_globals f))
      as [|packet rest]; simpl; repeat split; lia.
  - pose proof (audioCallback_globals frameCount out
                  (Receiver.fine_globals f)) as Hg.
    destruct (Receiver.audioCallback _ _ _) as [[out' g] ret].
    cbn in *. subst g. cbn. split; [done|]. split.
    + exists [], []. rewrite app_nil_r. simpl. repeat split; lia.
    + intros _. split; [done|]. by exists frameCount.
  - split; [done|]. split.
    + exists [], []. rewrite app_nil_r. simpl. repeat split; lia.
    + intros _. split; [done|]. by exists 0%nat.
Qed.
End receiver_shutdown.

Section receiver_shutdown_runs.
Context {D : Type} `{!LyraDecoder D}.
Implicit Types (f : Receiver.FineSystem D).

Lemma fine_run_after_flag schedule : forall f,
  Receiver.g_finished (Receiver.fine_globals f) = true ->
  let f' := Receiver.fine_run f schedule in
  Receiver.g_finished (Receiver.fine_globals f') = true
  /\ (exists popped pushed,
        Receiver.g_jitter_buffer (Receiver.fine_globals f) ++ pushed
        = popped ++ Receiver.g_jitter_buffer (Receiver.fine_globals f')
        /\ (length pushed + Receiver.in_flight (Receiver.network_at f')
            <= Receiver.in_flight (Receiver.network_at f))%nat
        /\ (length popped + Receiver.in_flight (Receiver.decoder_at f')
            <= Receiver.in_flight (Receiver.decoder_at f))%nat)
  /\ (Receiver.decoder_at f <> Receiver.InBody ->
      Receiver.fine_decoder f' = Receiver.fine_decoder f
      /\ exists k,
           Receiver.g_pcm_buffer (Receiver.fine_globals f')
           = drop k (Receiver.g_pcm_buffer (Receiver.fine_globals f))).
Proof.
  induction schedule as [|a schedule IH]; intros f Hfin.
  - cbn. split; [done|]. split.
    + exists [], []. rewrite app_nil_r. simpl. repeat split; lia.
    + intros _. split; [done|]. by exists 0%nat.
  - cbn [Receiver.fine_run foldl].
    destruct (fine_step_after_flag f a Hfin)
      as (Hfin1 & (popped1 & pushed1 & Hj1 & Hn1 & Hd1) & Hdec1).
    destruct (IH (Receiver.fine_step f a) Hfin1)
      as (Hfin' & (popped & pushed & Hj & Hn & Hd) & Hdec).
    unfold Receiver.fine_run in *.
    split; [exact Hfin'|]. split.
    + exists (popped1 ++ popped), (pushed1 ++ pushed).
      rewrite !length_app. split; [|split; lia].
      by rewrite app_assoc, Hj1, <- !app_assoc, Hj.
    + intros Hat. destruct (Hdec1 Hat) as (Hsame1 & k1 & Hk1).
      assert (Receiver.decoder_at (Receiver.fine_step f a)
              <> Receiver.InBody) as Hat1.
      { intros Heq. rewrite Heq in Hd1.
        destruct (Receiver.decoder_at f); simpl in Hd1; try lia. done. }
      destruct (Hdec Hat1) as (Hsame & k & Hk).
      split; [by rewrite Hsame|].
      exists (k1 + k)%nat. by rewrite Hk, Hk1, drop_drop.
Qed.
End receiver_shutdown_runs.

(** X4.  The receiver after the shutdown flag is set, with the loop test
    as a step of its own.  The flag is never cleared and no worker
    begins a new pass; a pass that was past its test when the flag was
    set completes.  Hence the jitter buffer gains at most one more
    packet (when the network thread was past its test, for instance
    parked in [recvfrom]) and loses at most one (when the decode worker
    was); with no pass in flight it never changes again, so the packets
    still queued are never decoded.  A decode worker with no pass in
    flight never calls the codec again, and the sample queue then only
    loses samples at its head, to the playback callback. *)
Theorem X4_after_shutdown_only_passes_in_flight_complete
    {D : Type} `{!LyraDecoder D} (schedule : list Receiver.FineAction) :
  forall f : Receiver.FineSystem D,
  Receiver.g_finished (Receiver.fine_globals f) = true ->
  let f' := Receiver.fine_run f schedule in
  let jitter := Receiver.g_jitter_buffer (Receiver.fine_globals f) in
  let jitter' := Receiver.g_jitter_buffer (Receiver.fine_globals f') in
  Receiver.g_finished (Receiver.fine_globals f') = true
  /\ (Receiver.network_at f <> Receiver.InBody ->
      Receiver.network_at f' <> Receiver.InBody)
  /\ (Receiver.decoder_at f <> Receiver.InBody ->
      Receiver.decoder_at f' <> Receiver.InBody)
  /\ (exists popped pushed,
        jitter ++ pushed = popped ++ jitter'
        /\ (length pushed
            <= Receiver.in_flight (Receiver.network_at f))%nat
        /\ (length popped
            <= Receiver.in_flight (Receiver.decoder_at f))%nat)
  /\ (Receiver.network_at f <> Receiver.InBody ->
      Receiver.decoder_at f <> Receiver.InBody ->
      jitter' = jitter)
  /\ (Receiver.decoder_at f <> Receiver.InBody ->
      Receiver.fine_decoder f' = Receiver.fine_decoder f
      /\ exists k,
           Receiver.g_pcm_buffer (Receiver.fine_globals f')
           = drop k (Receiver.g_pcm_buffer (Receiver.fine_globals f))).
Proof.
  intros f Hfin f' jitter jitter'. subst f' jitter jitter'.
  destruct (fine_run_after_flag schedule f Hfin)
    as (Hfin' & (popped & pushed & Hj & Hn & Hd) & Hdec).
  split; [exact Hfin'|]. split; [|split; [|split; [|split]]].
  - intros Hat Heq. rewrite Heq in Hn.
    destruct (Receiver.network_at f); simpl in Hn; try lia. done.
  - intros Hat Heq. rewrite Heq in Hd.
    destruct (Receiver.decoder_at f); simpl in Hd; try lia. done.
  - exists popped, pushed. split; [exact Hj|]. split; lia.
  - intros Hnat Hdat.
    assert (pushed = []) as ->.
    { apply length_zero_iff_nil.
      destruct (Receiver.network_at f); simpl in Hn; try lia. done. }
    assert (popped = []) as ->.
    { apply length_zero_iff_nil.
      destruct (Receiver.decoder_at f); simpl in Hd; try lia. done. }
    by rewrite app_nil_r in Hj.
  - exact Hdec.
Qed.

Lemma X4_after_shutdown_only_passes_in_flight_complete_witness :
  Receiver.g_finished
    (Receiver.fine_globals
       (Receiver.fine_step TestCodec.parked_in_recvfrom Receiver.FlagSet))
  = true
  /\ exists popped pushed,
       Receiver.g_jitter_buffer
         (Receiver.fine_globals
            (Receiver.fine_step TestCodec.parked_in_recvfrom
               Receiver.FlagSet)) ++ pushed
       = popped
           ++ Receiver.g_jitter_buffer
                (Receiver.fine_globals
                   (Receiver.fine_run
                      (Receiver.fine_step TestCodec.parked_in_recvfrom
                         Receiver.FlagSet)
                      [Receiver.NetworkBody (Receiver.Datagram [x06]);
                       Receiver.DecoderTest; Receiver.DecoderBody;
                       Receiver.NetworkTest;
                       Receiver.NetworkBody (Receiver.Datagram [x07])]))
       /\ (length pushed <= 1)%nat
       /\ (length popped <= 0)%nat.
Proof.
  assert (Hfin : Receiver.g_finished
                   (Receiver.fine_globals
                      (Receiver.fine_step TestCodec.parked_in_recvfrom
                         Receiver.FlagSet)) = true) by reflexivity.
  split; [exact Hfin|].
  exact (proj1 (proj2 (proj2 (proj2
    (X4_after_shutdown_only_passes_in_flight_complete
       [Receiver.NetworkBody (Receiver.Datagram [x06]);
        Receiver.DecoderTest; Receiver.DecoderBody;
        Receiver.NetworkTest;
        Receiver.NetworkBody (Receiver.Datagram [x07])]
       (Receiver.fine_step TestCodec.parked_in_recvfrom Receiver.FlagSet)
       Hfin))))).
Defined.

Section sender_shutdown.
Context {E : Type} `{!LyraEncoder E}.
Implicit Types (s : Sender.System E) (f : Sender.FineSystem E).

(** A pass of [Sender.System] is the test followed by the body. *)
Lemma sender_step_refines s a :
  Sender.fine_run (Sender.refine s) (Sender.fine_actions a)
  = Sender.refine (Sender.step s a).
Proof.
  destruct s as [g e nl sn].
  destruct a as [frameCount input| |]; cbn.
  - by destruct (Sender.audioCallback frameCount input e g)
      as [[e' g'] ret].
  - destruct nl; cbn; [|done].
    destruct (Sender.g_finished g); cbn; [done|].
    by destruct (Sender.network_thread_body g) as [g' [packet|]].
  - done.
Qed.

Lemma sender_run_refines schedule : forall s,
  Sender.fine_run (Sender.refine s)
    (concat (Sender.fine_actions <$> schedule))
  = Sender.refine (Sender.run s schedule).
Proof.
  induction schedule as [|a schedule IH]; intros s; [done|].
  cbn [fmap list_fmap concat Sender.run foldl].
  pose proof (sender_step_refines s a) as Hstep.
  unfold Sender.fine_run in *. rewrite foldl_app, Hstep. apply IH.
Qed.

Lemma sender_fine_step_after_flag f a :
  Sender.g_finished (Sender.fine_globals f) = true ->
  let f1 := Sender.fine_step f a in
  Sender.g_finished (Sender.fine_globals f1) = true
  /\ (exists extra,
        Sender.fine_sent f1 = Sender.fine_sent f ++ extra
        /\ (length extra + Receiver.in_flight (Sender.network_at f1)
            <= Receiver.in_flight (Sender.network_at f))%nat)
  /\ (Sender.network_at f <> Receiver.InBody ->
      Sender.g_encoded_packets_queue (Sender.fine_globals f)
        `prefix_of`
      Sender.g_encoded_packets_queue (Sender.fine_globals f1)).
Proof.
  intros Hfin. destruct a as [frameCount input| | |]; cbn.
  - unfold Sender.audioCallback.
    destruct (Encode (Sender.fine_encoder f) (take frameCount input))
      as [[packet|] e]; cbn.
    all: split; [done|]; split;
      [exists []; rewrite app_nil_r; simpl; split; [done|lia]|].
    + intros _. by apply prefix_app_r.
    + done.
  - destruct (Sender.network_at f) eqn:Hat; cbn; rewrite ?Hfin, ?Hat;
      (split; [done|]); (split; [|done]);
      exists []; rewrite app_nil_r; simpl; split; try done; lia.
  - destruct (Sender.network_at f) eqn:Hat; cbn; rewrite ?Hat;
      try (split; [done|]; split; [|done];
           exists []; rewrite app_nil_r; simpl; split; [done|lia]).
    rewrite sender_body_spec.
    destruct (Sender.g_encoded_packets_queue (Sender.fine_globals f))
      as [|[|b packet] rest]; cbn.
    + split; [done|]. split; [|done].
      exists []. rewrite app_nil_r. simpl. split; [done|lia].
    + split; [done|]. split; [|done].
      exists []. rewrite app_nil_r. simpl. split; [done|lia].
    + split; [done|]. split; [|done].
      exists [b :: packet]. simpl. split; [done|lia].
  - split; [done|]. split; [|done].
    exists []. rewrite app_nil_r. simpl. split; [done|lia].
Qed.

Lemma sender_fine_run_after_flag schedule : forall f,
  Sender.g_finished (Sender.fine_globals f) = true ->
  let f' := Sender.fine_run f schedule in
  Sender.g_finished (Sender.fine_globals f') = true
  /\ (exists extra,
        Sender.fine_sent f' = Sender.fine_sent f ++ extra
        /\ (length extra + Receiver.in_flight (Sender.network_at f')
            <= Receiver.in_flight (Sender.network_at f))%nat)
  /\ (Sender.network_at f <> Receiver.InBody ->
      Sender.g_encoded_packets_queue (Sender.fine_globals f)
        `prefix_of`
      Sender.g_encoded_packets_queue (Sender.fine_globals f')).
Proof.
  induction schedule as [|a schedule IH]; intros f Hfin.
  - cbn. split; [done|]. split; [|done].
    exists []. rewrite app_nil_r. simpl. split; [done|lia].
  - cbn [Sender.fine_run foldl].
    destruct (sender_fine_step_after_flag f a Hfin)
      as (Hfin1 & (extra1 & Hs1 & Hn1) & Hq1).
    destruct (IH (Sender.fine_step f a) Hfin1)
      as (Hfin' & (extra & Hs & Hn) & Hq).
    unfold Sender.fine_run in *.
    split; [exact Hfin'|]. split.
    + exists (extra1 ++ extra). rewrite length_app.
      split; [|lia]. by rewrite Hs, Hs1, <- app_assoc.
    + intros Hat.
      assert (Sender.network_at (Sender.fine_step f a)
              <> Receiver.InBody) as Hat1.
      { intros Heq. rewrite Heq in Hn1.
        destruct (Sender.network_at f); simpl in Hn1; try lia. done. }
      etrans; [exact (Hq1 Hat)|exact (Hq Hat1)].
Qed.
End sender_shutdown.

(** X10.  The sender after the shutdown flag is set, with the loop test
    as a step of its own.  The flag is never cleared and the network
    thread begins no new pass; a pass that was past its test when the
    flag was set completes, so at most one more datagram is sent, and
    none when no pass was in flight.  The capture callback does not look
    at the flag: with no pass in flight, the packets queued stay queued
    and those encoded afterwards are appended behind them. *)
Theorem X10_sender_after_shutdown_sends_at_most_one_datagram
    {E : Type} `{!LyraEncoder E} (schedule : list Sender.FineAction) :
  forall f : Sender.FineSystem E,
  Sender.g_finished (Sender.fine_globals f) = true ->
  let f' := Sender.fine_run f schedule in
  Sender.g_finished (Sender.fine_globals f') = true
  /\ (Sender.network_at f <> Receiver.InBody ->
      Sender.network_at f' <> Receiver.InBody)
  /\ (exists extra,
        Sender.fine_sent f' = Sender.fine_sent f ++ extra
        /\ (length extra
            <= Receiver.in_flight (Sender.network_at f))%nat)
  /\ (Sender.network_at f <> Receiver.InBody ->
      Sender.fine_sent f' = Sender.fine_sent f
      /\ Sender.g_encoded_packets_queue (Sender.fine_globals f)
           `prefix_of`
         Sender.g_encoded_packets_queue (Sender.fine_globals f')).
Proof.
  intros f Hfin f'. subst f'.
  destruct (sender_fine_run_after_flag schedule f Hfin)
    as (Hfin' & (extra & Hs & Hn) & Hq).
  split; [exact Hfin'|]. split; [|split].
  - intros Hat Heq. rewrite Heq in Hn.
    destruct (Sender.network_at f); simpl in Hn; try lia. done.
  - exists extra. split; [exact Hs|lia].
  - intros Hat. split; [|exact (Hq Hat)].
    assert (extra = []) as ->.
    { apply length_zero_iff_nil.
      destruct (Sender.network_at f); simpl in Hn; try lia. done. }
    by rewrite app_nil_r in Hs.
Qed.

Lemma X10_sender_after_shutdown_sends_at_most_one_datagram_witness :
  Sender.g_finished
    (Sender.fine_globals
       (Sender.fine_step TestCodec.sender_past_test Sender.FlagSet))
  = true
  /\ exists extra,
       Sender.fine_sent
         (Sender.fine_run
            (Sender.fine_step TestCodec.sender_past_test Sender.FlagSet)
            [Sender.NetworkBody; Sender.NetworkTest; Sender.NetworkBody;
             Sender.CaptureCall 2 [7; 8]])
       = Sender.fine_sent
           (Sender.fine_step TestCodec.sender_past_test Sender.FlagSet)
           ++ extra
       /\ (length extra <= 1)%nat.
Proof.
  assert (Hfin : Sender.g_finished
                   (Sender.fine_globals
                      (Sender.fine_step TestCodec.sender_past_test
                         Sender.FlagSet)) = true) by reflexivity.
  split; [exact Hfin|].
  exact (proj1 (proj2 (proj2
    (X10_sender_after_shutdown_sends_at_most_one_datagram
       [Sender.NetworkBody; Sender.NetworkTest; Sender.NetworkBody;
        Sender.CaptureCall 2 [7; 8]]
       (Sender.fine_step TestCodec.sender_past_test Sender.FlagSet)
       Hfin)))).
Defined.
